(** * rabix: the task execution engines of [rabix/runtime/engine/base.py]

    A shallow embedding of [Engine], [SequentialEngine] and
    [MultiprocessingEngine], with the properties of the resource ledger,
    the hooks, the job status computation and the two run loops. *)

From Stdlib Require Import ZArith List String Bool Lia.
Import ListNotations.

Local Open Scope Z_scope.

(** ** Resource requests and the resource ledger *)

(** [task.resources]: the two attributes the engine reads. *)
Record Resources := mkResources {
  mem_mb : Z;
  cpu : Z
}.

(** The ledger attributes of [MultiprocessingEngine.__init__]. *)
Record Ledger := mkLedger {
  total_ram : Z;
  total_cpu : Z;
  available_ram : Z;
  available_cpu : Z;
  multi_cpu_lock : bool
}.

(** [__init__]: everything is available, the lock is clear.  [ram] is
    [CONFIG['engine']['ram_mb']], [ncpu] is [multiprocessing.cpu_count()]. *)
Definition init_ledger (ram ncpu : Z) : Ledger :=
  {| total_ram := ram; total_cpu := ncpu;
     available_ram := ram; available_cpu := ncpu;
     multi_cpu_lock := false |}.

Definition set_available_ram (v : Z) (self : Ledger) : Ledger :=
  {| total_ram := total_ram self; total_cpu := total_cpu self;
     available_ram := v; available_cpu := available_cpu self;
     multi_cpu_lock := multi_cpu_lock self |}.

Definition set_available_cpu (v : Z) (self : Ledger) : Ledger :=
  {| total_ram := total_ram self; total_cpu := total_cpu self;
     available_ram := available_ram self; available_cpu := v;
     multi_cpu_lock := multi_cpu_lock self |}.

Definition set_multi_cpu_lock (v : bool) (self : Ledger) : Ledger :=
  {| total_ram := total_ram self; total_cpu := total_cpu self;
     available_ram := available_ram self; available_cpu := available_cpu self;
     multi_cpu_lock := v |}.

(** A call of the admission protocol: the engine acquires for a ready task
    and releases for a task whose result it has processed. *)
Inductive call :=
| Acquire (task : string) (res : Resources)
| Release (task : string).

(** The admitted tasks, each with the request recorded on it. *)
Definition admitted := list (string * Resources).

Fixpoint recorded (task : string) (held : admitted) : option Resources :=
  match held with
  | [] => None
  | (t, res) :: rest => if String.eqb t task then Some res else recorded task rest
  end.

Fixpoint forget (task : string) (held : admitted) : admitted :=
  match held with
  | [] => []
  | (t, res) :: rest =>
      if String.eqb t task then rest else (t, res) :: forget task rest
  end.

Section ResourceLedger.

(** [Resources.CPU_ALL], a class constant of [rabix.runtime.tasks] that the
    engine only reads (as [res.CPU_ALL]). *)
Variable CPU_ALL : Z.

(** [MultiprocessingEngine.acquire_resources], on [res = task.resources]:
    the returned boolean and the ledger after the call. *)
Definition acquire_resources (self : Ledger) (res : Resources) : bool * Ledger :=
  if mem_mb res >? available_ram self then (false, self)
  else if (cpu res =? CPU_ALL) &&
          (multi_cpu_lock self || negb (available_cpu self =? total_cpu self))
  then (false, self)
  else if cpu res >? available_cpu self then (false, self)
  else
    let self1 := set_available_ram (available_ram self - mem_mb res) self in
    let self2 :=
      if cpu res =? CPU_ALL
      then set_multi_cpu_lock true self1
      else set_available_cpu (available_cpu self1 - cpu res) self1 in
    (true, self2).

(** [MultiprocessingEngine.release_resources], on [res = task.resources]. *)
Definition release_resources (self : Ledger) (res : Resources) : Ledger :=
  let self1 := set_available_ram (available_ram self + mem_mb res) self in
  if cpu res =? CPU_ALL
  then set_multi_cpu_lock false self1
  else set_available_cpu (available_cpu self1 + cpu res) self1.

(** One call of the protocol.  A release has to match an admitted task and
    uses the request recorded for it; otherwise the sequence is not one
    the engine produces. *)
Definition protocol_step (st : Ledger * admitted) (c : call)
  : option (Ledger * admitted) :=
  let (self, held) := st in
  match c with
  | Acquire task res =>
      let (ok, self') := acquire_resources self res in
      Some (self', if ok then (task, res) :: held else held)
  | Release task =>
      match recorded task held with
      | Some res => Some (release_resources self res, forget task held)
      | None => None
      end
  end.

Fixpoint run_protocol (calls : list call) (st : Ledger * admitted)
  : option (Ledger * admitted) :=
  match calls with
  | [] => Some st
  | c :: rest =>
      match protocol_step st c with
      | Some st' => run_protocol rest st'
      | None => None
      end
  end.

(** CPU and RAM held by the admitted tasks; an exclusive (CPU_ALL) task
    holds no counted cores. *)
Fixpoint held_cpu (held : admitted) : Z :=
  match held with
  | [] => 0
  | (_, res) :: rest =>
      (if cpu res =? CPU_ALL then 0 else cpu res) + held_cpu rest
  end.

Fixpoint held_ram (held : admitted) : Z :=
  match held with
  | [] => 0
  | (_, res) :: rest => mem_mb res + held_ram rest
  end.

(** A request as the data model has it: memory is not negative, and the
    cpu count is the sentinel or a count. *)
Definition wf_request (res : Resources) : Prop :=
  0 <= mem_mb res /\ (cpu res = CPU_ALL \/ 0 <= cpu res).

Definition wf_call (c : call) : Prop :=
  match c with
  | Acquire _ res => wf_request res
  | Release _ => True
  end.

(** What the protocol keeps true of the ledger and the admitted tasks. *)
Definition conserved (st : Ledger * admitted) : Prop :=
  available_cpu (fst st) + held_cpu (snd st) = total_cpu (fst st) /\
  available_ram (fst st) + held_ram (snd st) = total_ram (fst st) /\
  0 <= available_cpu (fst st) /\ 0 <= available_ram (fst st) /\
  Forall (fun p => wf_request (snd p)) (snd st).

End ResourceLedger.

(** ** Tasks, jobs and what the engine is given *)

Module Task.

(** Modelled from the spec: the status constants of [Task]
    (rabix.runtime.tasks), which the engine assigns and compares. *)
Inductive status_t := WAITING | READY | RUNNING | FINISHED | FAILED.

Definition status_eqb (a b : status_t) : bool :=
  match a, b with
  | WAITING, WAITING | READY, READY | RUNNING, RUNNING
  | FINISHED, FINISHED | FAILED, FAILED => true
  | _, _ => false
  end.

(** What [task.result] holds after completion: the runner's return value or
    the exception object caught by the engine. *)
Inductive result_t (value error : Type) :=
| Value (v : value)
| Error (e : error).

(** The attributes of a task object. *)
Record t (value error : Type) := mk {
  task_id : string;
  status : status_t;
  arguments : value;
  resources : option Resources;
  result : option (result_t value error)
}.

Arguments Value {value error} v.
Arguments Error {value error} e.
Arguments mk {value error}.
Arguments task_id {value error}.
Arguments status {value error}.
Arguments arguments {value error}.
Arguments resources {value error}.
Arguments result {value error}.

Definition set_status {value error} (s : status_t) (task : t value error) :=
  mk (task_id task) s (arguments task) (resources task) (result task).

Definition set_resources {value error} (r : option Resources) (task : t value error) :=
  mk (task_id task) (status task) (arguments task) r (result task).

Definition set_result {value error} (r : option (result_t value error))
  (task : t value error) :=
  mk (task_id task) (status task) (arguments task) (resources task) r.

End Task.

Module Job.

(** Modelled from the spec: the status constants of [Job]
    (rabix.runtime.jobs). *)
Inductive status_t := QUEUED | RUNNING | FINISHED | FAILED.

Definition status_eqb (a b : status_t) : bool :=
  match a, b with
  | QUEUED, QUEUED | RUNNING, RUNNING | FINISHED, FINISHED | FAILED, FAILED => true
  | _, _ => false
  end.

(** A job object: [tasks] is its task graph, [objects] the task objects the
    graph refers to, by [task_id].  The engine and the graph both reach a
    task through its reference, so a status written by the engine is seen
    by the graph. *)
Record t (task graph : Type) := mk {
  job_id : string;
  status : status_t;
  error_message : option string;
  tasks : graph;
  objects : string -> task
}.

Arguments mk {task graph}.
Arguments job_id {task graph}.
Arguments status {task graph}.
Arguments error_message {task graph}.
Arguments tasks {task graph}.
Arguments objects {task graph}.

Definition set_status {task graph} (s : status_t) (job : t task graph) :=
  mk (job_id job) s (error_message job) (tasks job) (objects job).

Definition set_error_message {task graph} (m : option string) (job : t task graph) :=
  mk (job_id job) (status job) m (tasks job) (objects job).

Definition set_tasks {task graph} (g : graph) (h : string -> task)
  (job : t task graph) :=
  mk (job_id job) (status job) (error_message job) g h.

(** [task.<attr> = ...] on the task object [tid] of the job. *)
Definition set_task {task graph} (tid : string) (tk : task) (job : t task graph) :=
  mk (job_id job) (status job) (error_message job) (tasks job)
     (fun k => if String.eqb k tid then tk else objects job k).

End Job.

(** How a call of a runner's [run()] ends: it returns, it raises an
    instance of [Exception], or it raises something that is not one
    (KeyboardInterrupt, SystemExit), which [except Exception] lets through. *)
Inductive outcome (value error : Type) :=
| Returns (v : value)
| RaisesException (e : error)
| RaisesBaseException (b : error).

Arguments Returns {value error} v.
Arguments RaisesException {value error} e.
Arguments RaisesBaseException {value error} b.

(** The runner resolved for a task.  It is bound to the task object, so its
    methods see the task as it is when they are called. *)
Record Runner (value error : Type) := mkRunner {
  run : Task.t value error -> outcome value error;
  get_requirements : Task.t value error -> Resources
}.

Arguments mkRunner {value error}.
Arguments run {value error}.
Arguments get_requirements {value error}.

(** What the engine takes from the rest of rabix: the task graph of
    rabix.runtime.jobs behind [job.tasks], the runner lookup of [get_runner]
    (CONFIG and [import_name]), the printing of a result, the worker pool's
    answer to [ready()] (by pass of the run loop, job and task), and
    [Resources.CPU_ALL]. *)
Class Host := mkHost {
  value : Type;
  error : Type;
  TaskGraph : Type;
  get_ready_tasks : TaskGraph -> (string -> Task.t value error) -> list string;
  iter_tasks : TaskGraph -> list string;
  resolve_task : string -> TaskGraph -> (string -> Task.t value error) ->
                 TaskGraph * (string -> Task.t value error);
  get_runner : Task.t value error -> Runner value error;
  str_result : option (Task.result_t value error) -> string;
  async_result_ready : nat -> string -> string -> bool;
  CPU_ALL : Z
}.

(** Exceptions that travel through the engine. *)
Inductive exn (error : Type) :=
| JobError (msg : string)
| AttributeError
| Uncaught (b : error).

Arguments JobError {error} msg.
Arguments AttributeError {error}.
Arguments Uncaught {error} b.

(** The end of a computation on a state: normal, by an exception, or cut
    off by the step budget; the state reached is kept in each case. *)
Inductive result (S : Type) (E : Type) :=
| Done (s : S)
| Raised (x : exn E) (s : S)
| Timeout (s : S).

Arguments Done {S E} s.
Arguments Raised {S E} x s.
Arguments Timeout {S E} s.

Definition state_of {S E} (r : result S E) : S :=
  match r with
  | Done s | Raised _ s | Timeout s => s
  end.

Definition returned {S E} (r : result S E) : bool :=
  match r with
  | Done _ => true
  | _ => false
  end.

Definition and_then {S E} (r : result S E) (k : S -> result S E) : result S E :=
  match r with
  | Done s => k s
  | Raised x s => Raised x s
  | Timeout s => Timeout s
  end.

Notation "r >>= k" := (and_then r k) (at level 50, left associativity).

(** ** [Engine]: the job registry and the hooks *)

Module Engine.

Section Defs.

Context {H : Host}.

Definition task : Type := Task.t value error.
Definition job : Type := Job.t task TaskGraph.

(** What the engine does that an observer sees, in order.  The default
    hooks do nothing; [BeforeTask] and [AfterTask] record that
    [self.before_task(task)] and [self.after_task(task)] were called and on
    which task state.  [RunnerRun] is the synchronous call of the runner by
    [SequentialEngine]; [RunTaskAsync] and [GetResult] are the dispatch to
    the pool and the fetch of its result by [MultiprocessingEngine]. *)
Inductive event :=
| BeforeTask (tk : task)
| AfterTask (tk : task)
| RunnerRun (tk : task) (o : outcome value error)
| RunTaskAsync (tk : task)
| GetResult (tk : task) (o : outcome value error).

(** [self.jobs] is a dict from [job_id] to job object: its keys in
    iteration order, and the job objects they refer to. *)
Record t := mk {
  jobs : list string;
  job_objects : string -> job;
  log : list event
}.

(** [Engine.__init__]: no job registered; [heap] holds the job objects the
    caller has built. *)
Definition init (heap : string -> job) : t := mk [] heap [].

Definition set_log (l : list event) (self : t) : t :=
  mk (jobs self) (job_objects self) l.

(** [job.<attr> = ...] on the job object [k]. *)
Definition set_job (k : string) (j : job) (self : t) : t :=
  mk (jobs self)
     (fun k' => if String.eqb k' k then j else job_objects self k')
     (log self).

Definition emit (e : event) (self : t) : t :=
  set_log (log self ++ [e]) self.

(** [self.jobs[job.job_id] = job] for each job of [run]. *)
Definition register (k : string) (self : t) : t :=
  if existsb (String.eqb k) (jobs self) then self
  else mk (jobs self ++ [k]) (job_objects self) (log self).

Definition register_all (ks : list string) (self : t) : t :=
  fold_left (fun s k => register k s) ks self.

(** [any([t.status != Task.FINISHED for t in job.tasks.iter_tasks()])]. *)
Definition any_unfinished (j : job) : bool :=
  existsb (fun tid =>
             negb (Task.status_eqb (Task.status (Job.objects j tid)) Task.FINISHED))
          (iter_tasks (Job.tasks j)).

(** The loop of [_update_jobs_check_ready] over [itervalues(self.jobs)]. *)
Fixpoint _update_jobs_loop (keys : list string) (has_ready : bool) (self : t)
  : bool * t :=
  match keys with
  | [] => (has_ready, self)
  | k :: rest =>
      let j := job_objects self k in
      match get_ready_tasks (Job.tasks j) (Job.objects j) with
      | _ :: _ => _update_jobs_loop rest true self
      | [] =>
          let failed := any_unfinished j in
          let j' := Job.set_status (if failed then Job.FAILED else Job.FINISHED) j in
          _update_jobs_loop rest has_ready (set_job k j' self)
      end
  end.

(** [Engine._update_jobs_check_ready]. *)
Definition _update_jobs_check_ready (self : t) : bool * t :=
  _update_jobs_loop (jobs self) false self.

End Defs.

End Engine.

(** ** [SequentialEngine] *)

Module SequentialEngine.

Section Defs.

Context {H : Host}.

Local Abbreviation task := (@Engine.task H).
Local Abbreviation job := (@Engine.job H).
Local Abbreviation event := (@Engine.event H).

(** [SequentialEngine.run_task]; the call of the runner is recorded. *)
Definition run_task (tk : task) (log : list event)
  : result (task * list event) error :=
  let tk := Task.set_status Task.RUNNING tk in
  let o := run (get_runner tk) tk in
  let log := log ++ [Engine.RunnerRun tk o] in
  match o with
  | Returns v =>
      Done (Task.set_status Task.FINISHED (Task.set_result (Some (Task.Value v)) tk),
            log)
  | RaisesException e =>
      Done (Task.set_result (Some (Task.Error e)) (Task.set_status Task.FAILED tk),
            log)
  | RaisesBaseException b => Raised (Uncaught b) (tk, log)
  end.

(** ['Task %s failed. Reason: %s' % (task.task_id, task.result)]. *)
Definition failure_message (tk : task) : string :=
  ("Task " ++ Task.task_id tk ++ " failed. Reason: " ++ str_result (Task.result tk))%string.

(** The [for task in ready] loop of [_run_job]. *)
Fixpoint _run_job_for (ready : list string) (st : job * list event)
  : result (job * list event) error :=
  match ready with
  | [] => Done st
  | tid :: rest =>
      let (j, log) := st in
      let tk := Job.objects j tid in
      let log := log ++ [Engine.BeforeTask tk] in
      match run_task tk log with
      | Done (tk, log) =>
          let j := Job.set_task tid tk j in
          if Task.status_eqb (Task.status tk) Task.FAILED
          then Raised (JobError (failure_message tk)) (j, log)
          else
            let log := log ++ [Engine.AfterTask tk] in
            let (g, h) := resolve_task tid (Job.tasks j) (Job.objects j) in
            _run_job_for rest (Job.set_tasks g h j, log)
      | Raised x (tk, log) => Raised x (Job.set_task tid tk j, log)
      | Timeout (tk, log) => Timeout (Job.set_task tid tk j, log)
      end
  end.

(** [SequentialEngine._run_job]: the [while ready] loop, with a budget of
    passes. *)
Fixpoint _run_job (fuel : nat) (st : job * list event)
  : result (job * list event) error :=
  match get_ready_tasks (Job.tasks (fst st)) (Job.objects (fst st)) with
  | [] => Done st
  | ready =>
      match fuel with
      | O => Timeout st
      | S fuel' => _run_job_for ready st >>= _run_job fuel'
      end
  end.

(** The body of the [for job] loop of [run_all], for a job that is QUEUED. *)
Definition run_all_body (fuel : nat) (j : job) (log : list event)
  : result (job * list event) error :=
  let j := Job.set_status Job.RUNNING j in
  match _run_job fuel (j, log) with
  | Done (j, log) => Done (Job.set_status Job.FINISHED j, log)
  | Raised (JobError msg) (j, log) =>
      Done (Job.set_error_message (Some msg) (Job.set_status Job.FAILED j), log)
  | Raised x st => Raised x st
  | Timeout st => Timeout st
  end.

Definition put (k : string) (st : job * list event) (self : Engine.t) : Engine.t :=
  Engine.set_log (snd st) (Engine.set_job k (fst st) self).

Fixpoint run_all_loop (fuel : nat) (keys : list string) (self : Engine.t)
  : result Engine.t error :=
  match keys with
  | [] => Done self
  | k :: rest =>
      let j := Engine.job_objects self k in
      if negb (Job.status_eqb (Job.status j) Job.QUEUED)
      then run_all_loop fuel rest self
      else
        match run_all_body fuel j (Engine.log self) with
        | Done st => run_all_loop fuel rest (put k st self)
        | Raised x st => Raised x (put k st self)
        | Timeout st => Timeout (put k st self)
        end
  end.

(** [SequentialEngine.run_all]. *)
Definition run_all (fuel : nat) (self : Engine.t) : result Engine.t error :=
  run_all_loop fuel (Engine.jobs self) self.

(** [Engine.run] on a sequential engine. *)
Definition run (fuel : nat) (js : list string) (self : Engine.t)
  : result Engine.t error :=
  run_all fuel (Engine.register_all js self).

End Defs.

End SequentialEngine.

(** ** [MultiprocessingEngine] *)

Module MultiprocessingEngine.

Section Defs.

Context {H : Host}.

Local Abbreviation task := (@Engine.task H).
Local Abbreviation job := (@Engine.job H).
Local Abbreviation event := (@Engine.event H).

(** An item [[job, task, result]] of [self.running]: the references to the
    job and the task, and what [result.get()] will give. *)
Record item := mkItem {
  item_job : string;
  item_task : string;
  item_result : outcome value error
}.

(** The engine object: the attributes of [Engine], those added by
    [MultiprocessingEngine.__init__], and the number of passes of the run
    loop made so far (the time at which the pool is polled). *)
Record t := mk {
  base : Engine.t;
  running : list item;
  ledger : Ledger;
  clock : nat
}.

(** [MultiprocessingEngine.__init__]. *)
Definition init (heap : string -> job) (ram ncpu : Z) : t :=
  mk (Engine.init heap) [] (init_ledger ram ncpu) 0.

Definition set_base (b : Engine.t) (self : t) : t :=
  mk b (running self) (ledger self) (clock self).

Definition set_running (r : list item) (self : t) : t :=
  mk (base self) r (ledger self) (clock self).

Definition set_ledger (l : Ledger) (self : t) : t :=
  mk (base self) (running self) l (clock self).

Definition tick (self : t) : t :=
  mk (base self) (running self) (ledger self) (S (clock self)).

Definition emit (e : event) (self : t) : t :=
  set_base (Engine.emit e (base self)) self.

(** [task.<attr> = ...] on task [tid] of job [k]. *)
Definition set_task (k tid : string) (tk : task) (self : t) : t :=
  set_base (Engine.set_job k (Job.set_task tid tk (Engine.job_objects (base self) k))
                           (base self)) self.

Definition get_task (k tid : string) (self : t) : task :=
  Job.objects (Engine.job_objects (base self) k) tid.

(** The statements of [process_result] after its [try] statement, on the
    task as the [try] statement left it. *)
Definition process_result_rest (k tid : string) (tk : task) (self : t)
  : result t error :=
  let self := emit (Engine.AfterTask tk) self in
  match Task.resources tk with
  | None => Raised AttributeError self
  | Some res =>
      let self := set_ledger (release_resources CPU_ALL (ledger self) res) self in
      let j := Engine.job_objects (base self) k in
      let (g, h) := resolve_task tid (Job.tasks j) (Job.objects j) in
      Done (set_base (Engine.set_job k (Job.set_tasks g h j) (base self)) self)
  end.

(** [MultiprocessingEngine.process_result(job, task, async_result)]. *)
Definition process_result (k tid : string) (o : outcome value error) (self : t)
  : result t error :=
  let tk := get_task k tid self in
  let self := emit (Engine.GetResult tk o) self in
  match o with
  | Returns v =>
      let tk := Task.set_status Task.FINISHED
                  (Task.set_result (Some (Task.Value v)) tk) in
      process_result_rest k tid tk (set_task k tid tk self)
  | RaisesException e =>
      let tk := Task.set_result (Some (Task.Error e))
                  (Task.set_status Task.FAILED tk) in
      process_result_rest k tid tk (set_task k tid tk self)
  | RaisesBaseException b => Raised (Uncaught b) self
  end.

(** The body of the loop of [_run_ready_tasks], for the ready task [tid] of
    job [k]. *)
Definition _run_ready_task (k tid : string) (self : t) : t :=
  let tk := get_task k tid self in
  let runner := get_runner tk in
  let res :=
    match Task.resources tk with
    | Some res => res
    | None => get_requirements runner tk
    end in
  let tk :=
    match Task.resources tk with
    | Some _ => tk
    | None => Task.set_resources (Some res) tk
    end in
  let self := set_task k tid tk self in
  let (ok, l) := acquire_resources CPU_ALL (ledger self) res in
  let self := set_ledger l self in
  if negb ok then self
  else
    let self := emit (Engine.BeforeTask tk) self in
    let tk := Task.set_status Task.RUNNING tk in
    let self := set_task k tid tk self in
    let self := emit (Engine.RunTaskAsync tk) self in
    set_running (running self ++ [mkItem k tid (run runner tk)]) self.

(** [_iter_ready] is a generator: the ready tasks of a job are asked for
    when the iteration reaches that job. *)
Fixpoint _run_ready_tasks_loop (keys : list string) (self : t) : t :=
  match keys with
  | [] => self
  | k :: rest =>
      let j := Engine.job_objects (base self) k in
      let ready := get_ready_tasks (Job.tasks j) (Job.objects j) in
      _run_ready_tasks_loop rest
        (fold_left (fun s tid => _run_ready_task k tid s) ready self)
  end.

(** [MultiprocessingEngine._run_ready_tasks]. *)
Definition _run_ready_tasks (self : t) : t :=
  _run_ready_tasks_loop (Engine.jobs (base self)) self.

(** The [for ndx, item in enumerate(self.running)] loop of [run_all]. *)
Fixpoint poll (ndx : nat) (items : list item) (to_remove : list nat) (self : t)
  : result (t * list nat) error :=
  match items with
  | [] => Done (self, to_remove)
  | it :: rest =>
      if async_result_ready (clock self) (item_job it) (item_task it)
      then
        match process_result (item_job it) (item_task it) (item_result it) self with
        | Done self => poll (S ndx) rest (to_remove ++ [ndx]) self
        | Raised x self => Raised x (self, to_remove)
        | Timeout self => Timeout (self, to_remove)
        end
      else poll (S ndx) rest to_remove self
  end.

(** [[x for n, x in enumerate(self.running) if n not in to_remove]]. *)
Fixpoint keep_unless (ndx : nat) (items : list item) (to_remove : list nat)
  : list item :=
  match items with
  | [] => []
  | it :: rest =>
      if existsb (Nat.eqb ndx) to_remove
      then keep_unless (S ndx) rest to_remove
      else it :: keep_unless (S ndx) rest to_remove
  end.

(** One pass of the [while True] loop of [run_all]: [inl] when the pass
    executes [return], [inr] when it goes round again. *)
Definition run_all_pass (self : t) : result (t + t) error :=
  let self := _run_ready_tasks self in
  match poll 0 (running self) [] self with
  | Done (self, to_remove) =>
      match to_remove with
      | _ :: _ =>
          let self := set_running (keep_unless 0 (running self) to_remove) self in
          let (has_ready, b) := Engine._update_jobs_check_ready (base self) in
          let self := set_base b self in
          match running self, has_ready with
          | [], false => Done (inl self)
          | _, _ => Done (inr self)
          end
      | [] => Done (inr self)
      end
  | Raised x (self, _) => Raised x (inr self)
  | Timeout (self, _) => Timeout (inr self)
  end.

(** [MultiprocessingEngine.run_all], with a budget of passes. *)
Fixpoint run_all (fuel : nat) (self : t) : result t error :=
  match fuel with
  | O => Timeout self
  | S fuel' =>
      match run_all_pass self with
      | Done (inl self) => Done self
      | Done (inr self) => run_all fuel' (tick self)
      | Raised x (inl self) | Raised x (inr self) => Raised x self
      | Timeout (inl self) | Timeout (inr self) => Timeout self
      end
  end.

(** [Engine.run] on a multiprocessing engine. *)
Definition run (fuel : nat) (js : list string) (self : t) : result t error :=
  run_all fuel (set_base (Engine.register_all js (base self)) self).

End Defs.

End MultiprocessingEngine.

(** ** What the hooks see *)

Module Trace.

Section Defs.

Context {H : Host}.

Local Abbreviation task := (@Engine.task H).
Local Abbreviation event := (@Engine.event H).

(** The task object as the engine leaves it when it starts it, when its
    run returned [v], and when its run raised the exception [e]. *)
Definition started (tk : task) : task := Task.set_status Task.RUNNING tk.

Definition finished (v : value) (tk : task) : task :=
  Task.set_status Task.FINISHED (Task.set_result (Some (Task.Value v)) tk).

Definition failed (e : error) (tk : task) : task :=
  Task.set_result (Some (Task.Error e)) (Task.set_status Task.FAILED tk).

(** The events of tasks run to success one after the other by
    [SequentialEngine]: hook, run, hook. *)
Inductive successes : list event -> Prop :=
| successes_nil : successes []
| successes_cons (tk : task) (v : value) (rest : list event) :
    successes rest ->
    successes (Engine.BeforeTask tk :: Engine.RunnerRun (started tk) (Returns v)
               :: Engine.AfterTask (finished v (started tk)) :: rest).

(** The events of a task whose run raised: hook and run, nothing after. *)
Definition failure (tk : task) (o : outcome value error) : list event :=
  [Engine.BeforeTask tk; Engine.RunnerRun (started tk) o].

(** Both hooks around every synchronous run that came to an end, by a
    value or by an exception. *)
Definition hooks_around_every_run (l : list event) : Prop :=
  forall pre tk o post,
    l = pre ++ Engine.RunnerRun tk o :: post ->
    (exists b, o = RaisesBaseException b) \/
    (exists pre' tk0, pre = pre' ++ [Engine.BeforeTask tk0] /\ tk = started tk0) /\
    (exists tk1 post', post = Engine.AfterTask tk1 :: post' /\
                       Task.task_id tk1 = Task.task_id tk).

(** How a run of [_run_job] that added the events [ext] ended: without an
    exception after successes only, or by an exception right after the run
    that raised it. *)
Definition sequential_shape {S : Type} (r : result S error) (ext : list event) : Prop :=
  match r with
  | Done _ | Timeout _ => successes ext
  | Raised x _ =>
      exists ext0 tk,
        successes ext0 /\
        ((exists e, ext = ext0 ++ failure tk (RaisesException e) /\
                    x = JobError (SequentialEngine.failure_message
                                    (failed e (started tk)))) \/
         (exists b, ext = ext0 ++ failure tk (RaisesBaseException b) /\
                    x = Uncaught b))
  end.

End Defs.

End Trace.

(** ** A task graph and a host to run the engines on *)

Module Dag.

(** Modelled from the spec: the TaskGraph of rabix.runtime.jobs, absent from
    the sources at hand.  A DAG over task ids with "must finish before"
    edges; a task is in the ready frontier when it has not started and all
    its predecessors are FINISHED; resolving a task promotes the dependents
    whose predecessors are now all FINISHED. *)
Record t := mk {
  nodes : list string;
  edges : list (string * string)
}.

Definition predecessors (g : t) (tid : string) : list string :=
  map fst (filter (fun e => String.eqb (snd e) tid) (edges g)).

Section Ops.

Context {value error : Type}.

Definition not_started (tk : Task.t value error) : bool :=
  Task.status_eqb (Task.status tk) Task.WAITING ||
  Task.status_eqb (Task.status tk) Task.READY.

Definition satisfied (g : t) (h : string -> Task.t value error) (tid : string) : bool :=
  forallb (fun p => Task.status_eqb (Task.status (h p)) Task.FINISHED)
          (predecessors g tid).

Definition get_ready_tasks (g : t) (h : string -> Task.t value error) : list string :=
  filter (fun tid => not_started (h tid) && satisfied g h tid) (nodes g).

Definition iter_tasks (g : t) : list string := nodes g.

Definition resolve_task (tid : string) (g : t) (h : string -> Task.t value error)
  : t * (string -> Task.t value error) :=
  (g, fun k =>
        if existsb (String.eqb tid) (predecessors g k) &&
           Task.status_eqb (Task.status (h k)) Task.WAITING &&
           satisfied g h k
        then Task.set_status Task.READY (h k)
        else h k).

End Ops.

End Dag.

Module Demo.

Local Open Scope string_scope.

(** A runner for the examples: the task's arguments say how its run ends;
    every task asks for one core and 100 MB. *)
Definition runner : Runner string string :=
  mkRunner
    (fun tk =>
       if String.eqb (Task.arguments tk) "raise" then RaisesException "boom"
       else if String.eqb (Task.arguments tk) "interrupt"
            then RaisesBaseException "KeyboardInterrupt"
            else Returns ("out:" ++ Task.task_id tk))
    (fun _ => mkResources 100 1).

Definition str_result (r : option (Task.result_t string string)) : string :=
  match r with
  | None => "None"
  | Some (Task.Value v) => v
  | Some (Task.Error e) => e
  end.

(** The host of the examples, for a given behaviour of the pool. *)
Definition host (ready : nat -> string -> string -> bool) : Host :=
  mkHost string string Dag.t
         Dag.get_ready_tasks Dag.iter_tasks Dag.resolve_task
         (fun _ => runner) str_result ready (-1)%Z.

Definition new_task (tid args : string) : Task.t string string :=
  Task.mk tid Task.WAITING args None None.

(** Task objects by id: the argument of a task is its behaviour. *)
Definition tasks_of (behaviour : string -> string) : string -> Task.t string string :=
  fun tid => new_task tid (behaviour tid).

Definition new_job (k : string) (g : Dag.t) (behaviour : string -> string)
  : Job.t (Task.t string string) Dag.t :=
  Job.mk k Job.QUEUED None g (tasks_of behaviour).

(** Fan-out: root [a] with dependents [b] and [c]; [a] raises. *)
Definition fan_out : Dag.t := Dag.mk ["a"; "b"; "c"] [("a", "b"); ("a", "c")].

Definition fan_out_job :=
  new_job "j" fan_out (fun tid => if String.eqb tid "a" then "raise" else "ok").

(** Two independent tasks; [a] raises, [b] returns. *)
Definition pair : Dag.t := Dag.mk ["a"; "b"] [].

Definition pair_job :=
  new_job "j" pair (fun tid => if String.eqb tid "a" then "raise" else "ok").

(** Two independent tasks, both returning. *)
Definition ok_pair_job := new_job "j" pair (fun _ => "ok").

(** Two independent tasks; the run of [a] is interrupted, [b] returns. *)
Definition interrupted_pair_job :=
  new_job "j" pair (fun tid => if String.eqb tid "a" then "interrupt" else "ok").

(** A chain [a] then [b], both returning. *)
Definition chain : Dag.t := Dag.mk ["a"; "b"] [("a", "b")].

Definition chain_job := new_job "j" chain (fun _ => "ok").

(** Admission calls on a machine with 4 cores and 1000 MB: an exclusive
    task, then a one-core task while the first is still admitted. *)
Definition exclusive_then_single : list call :=
  [Acquire "x" (mkResources 100 (-1)); Acquire "y" (mkResources 100 1)].

(** Two admissions, a rejection (two cores asked, one left), a matching
    release, and the rejection of an exclusive task on a busy machine. *)
Definition busy_calls : list call :=
  [Acquire "a" (mkResources 300 2); Acquire "b" (mkResources 200 1);
   Acquire "c" (mkResources 100 2); Release "a";
   Acquire "x" (mkResources 100 (-1))].

(** A task that asks for no core (CPU_NEGLIGIBLE is 0 in rabix) is
    admitted and stays admitted. *)
Definition negligible_calls : list call :=
  [Acquire "z" (mkResources 50 0)].

(** A pool in which nothing ever completes. *)
Definition never : nat -> string -> string -> bool := fun _ _ _ => false.

(** A pool in which [a] is complete from the first poll and [b] from the
    third pass on. *)
Definition a_first : nat -> string -> string -> bool :=
  fun clock _ tid => if String.eqb tid "a" then true else Nat.leb 2 clock.

End Demo.

(** ** Counting what the protocol and the engines hold *)

(** The number of admitted tasks whose request is exclusive
    ([cpu == CPU_ALL]). *)
Fixpoint exclusive_held (CPU_ALL : Z) (held : admitted) : nat :=
  match held with
  | [] => O
  | (_, res) :: rest =>
      ((if (cpu res =? CPU_ALL)%Z then 1 else 0) + exclusive_held CPU_ALL rest)%nat
  end.

Section Observations.

Context {H : Host}.

(** Whether the job has a ready task: [if job.tasks.get_ready_tasks()]. *)
Definition has_ready_task (j : Engine.job) : bool :=
  match get_ready_tasks (Job.tasks j) (Job.objects j) with
  | [] => false
  | _ :: _ => true
  end.

(** Whether the event is a run that raised, an [Exception] or not. *)
Definition run_raised (ev : Engine.event) : bool :=
  match ev with
  | Engine.RunnerRun _ (Returns _) => false
  | Engine.RunnerRun _ _ => true
  | _ => false
  end.

(** Whether the pool says that the result of the item is ready, at the
    time of the pass. *)
Definition item_ready (clock : nat) (it : MultiprocessingEngine.item) : bool :=
  async_result_ready clock (MultiprocessingEngine.item_job it)
                     (MultiprocessingEngine.item_task it).

(** The engine a pass of [run_all] ends with, returning or not. *)
Definition pass_state (r : MultiprocessingEngine.t + MultiprocessingEngine.t)
  : MultiprocessingEngine.t :=
  match r with
  | inl self | inr self => self
  end.

(** [task.resources] of the task of an item of [self.running]. *)
Definition item_resources (self : MultiprocessingEngine.t)
  (it : MultiprocessingEngine.item) : option Resources :=
  Task.resources (MultiprocessingEngine.get_task
                    (MultiprocessingEngine.item_job it)
                    (MultiprocessingEngine.item_task it) self).

(** Every task in flight has its [resources] set, as [_run_ready_tasks]
    leaves the tasks it dispatches. *)
Definition in_flight_resources (self : MultiprocessingEngine.t) : Prop :=
  forall it, In it (MultiprocessingEngine.running self) ->
             item_resources self it <> None.

(** Modelled from the spec: [resolve_task] promotes the dependents of a
    task into the ready frontier; it does not write the [resources] of any
    task. *)
Definition resolve_task_keeps_resources : Prop :=
  forall (tid : string) (g : TaskGraph) (h : string -> Engine.task) (t : string),
    Task.resources (snd (resolve_task tid g h) t) = Task.resources (h t).

(** Where an exception that leaves the run loop of [MultiprocessingEngine]
    comes from, in the state it leaves behind: what is not an [Exception]
    is what the pool gave for an item in flight; an AttributeError is
    [release_resources(None)], for an item in flight whose task has no
    resources; a JobError is never raised. *)
Definition escapes (x : exn error) (s : MultiprocessingEngine.t) : Prop :=
  match x with
  | Uncaught b =>
      exists it, In it (MultiprocessingEngine.running s) /\
                 MultiprocessingEngine.item_result it = RaisesBaseException b
  | AttributeError =>
      exists it, In it (MultiprocessingEngine.running s) /\
                 item_resources s it = None
  | JobError _ => False
  end.

End Observations.

(** ** [rabix/main.py]: tool descriptions as Python values *)

(** The values a tool description, a job or an input file is made of once
    loaded (JSON or YAML): [None], booleans, integers, floats (kept as the
    64 bits of the double), strings, lists, and dicts with string keys in
    insertion order. *)
#[warnings="-register-all"]
Inductive pyobj :=
| PNone
| PBool (b : bool)
| PInt (n : Z)
| PFloat (bits : Z)
| PStr (s : string)
| PList (l : list pyobj)
| PDict (d : list (string * pyobj)).

(** The exceptions the functions below can raise. *)
Inductive pyerr :=
| PyAttributeError
| PyKeyError (key : string)
| PyTypeError.

(** How a call ends: a value, one of the exceptions above, or the
    interpreter's refusal of a call nested deeper than its recursion limit
    allows (RecursionError; in Python 2 a RuntimeError, maximum recursion
    depth exceeded), which nothing here catches. *)
Inductive pyrun (A : Type) :=
| Ok (a : A)
| Raise (e : pyerr)
| RecursionError.

Arguments Ok {A} a.
Arguments Raise {A} e.
Arguments RecursionError {A}.

Definition bind {A B : Type} (r : pyrun A) (k : A -> pyrun B) : pyrun B :=
  match r with
  | Ok a => k a
  | Raise e => Raise e
  | RecursionError => RecursionError
  end.

(** [d.get(k)], [k in d] and [d[k] = v] on a dict: an assignment to a key
    that is there keeps its place, a new key goes to the end. *)
Fixpoint dict_get (d : list (string * pyobj)) (k : string) : option pyobj :=
  match d with
  | [] => None
  | (k', v) :: rest => if String.eqb k' k then Some v else dict_get rest k
  end.

Definition dict_has (d : list (string * pyobj)) (k : string) : bool :=
  match dict_get d k with
  | Some _ => true
  | None => false
  end.

Fixpoint dict_set (d : list (string * pyobj)) (k : string) (v : pyobj)
  : list (string * pyobj) :=
  match d with
  | [] => [(k, v)]
  | (k', v') :: rest =>
      if String.eqb k' k then (k', v) :: rest else (k', v') :: dict_set rest k v
  end.

(** The truth value of an object in an [if] or an [and]. *)
Definition truthy (o : pyobj) : bool :=
  match o with
  | PNone => false
  | PBool b => b
  | PInt n => negb (n =? 0)
  | PFloat bits => negb (bits =? 0) && negb (bits =? 2 ^ 63)
  | PStr s => negb (String.eqb s "")
  | PList l => match l with [] => false | _ => true end
  | PDict d => match d with [] => false | _ => true end
  end.

(** [o == s] for a string literal [s]. *)
Definition is_str (o : option pyobj) (s : string) : bool :=
  match o with
  | Some (PStr s') => String.eqb s' s
  | _ => false
  end.

(** A loop body applied to the elements of a list in turn, up to the first
    exception. *)
Fixpoint for_each {A B : Type} (f : A -> pyrun B) (l : list A) : pyrun (list B) :=
  match l with
  | [] => Ok []
  | a :: rest => bind (f a) (fun b => bind (for_each f rest) (fun bs => Ok (b :: bs)))
  end.

(** The "container type" part of [fix_types], on the dict [tool]. *)
Definition fix_container (d : list (string * pyobj)) : pyrun (list (string * pyobj)) :=
  let requirements :=
    match dict_get d "requirements" with Some r => r | None => PDict [] end in
  match requirements with
  | PDict req =>
      let environment :=
        match dict_get req "environment" with Some e => e | None => PNone end in
      if truthy environment then
        match environment with
        | PDict env =>
            match dict_get env "container" with
            | Some (PDict c) =>
                if is_str (dict_get c "type") "docker" then
                  Ok (dict_set d "requirements"
                        (PDict (dict_set req "environment"
                                  (PDict (dict_set env "container"
                                            (PDict (dict_set c "@type"
                                                      (PStr "Docker"))))))))
                else Ok d
            | _ => Ok d
            end
        | _ => Raise PyAttributeError
        end
      else Ok d
  | _ => Raise PyAttributeError
  end.

(** The "schema type" part of [fix_types], for [key] being inputs or
    outputs. *)
Definition fix_schema (key : string) (d : list (string * pyobj))
  : list (string * pyobj) :=
  match dict_get d key with
  | Some (PDict schema) =>
      if dict_has schema "@type" then d
      else dict_set d key (PDict (dict_set schema "@type" (PStr "JsonSchema")))
  | _ => d
  end.

(** [fix_types(step['app'])] for one [step] of [tool['steps']], given
    [fix_types] for the nested call. *)
Definition fix_step (fix_app : pyobj -> pyrun pyobj) (step : pyobj) : pyrun pyobj :=
  match step with
  | PDict sd =>
      match dict_get sd "app" with
      | Some app => bind (fix_app app) (fun app' => Ok (PDict (dict_set sd "app" app')))
      | None => Raise (PyKeyError "app")
      end
  | _ => Raise PyTypeError
  end.

(** The "tool type" part, from [if tool['@type'] == 'Workflow'] on.
    Iterating over a dict or a string gives strings, on which [step['app']]
    raises. *)
Definition fix_steps (fix_app : pyobj -> pyrun pyobj) (d : list (string * pyobj))
  : pyrun (list (string * pyobj)) :=
  if is_str (dict_get d "@type") "Workflow" then
    match dict_get d "steps" with
    | None => Raise (PyKeyError "steps")
    | Some (PList steps) =>
        bind (for_each (fix_step fix_app) steps)
             (fun steps' => Ok (dict_set d "steps" (PList steps')))
    | Some (PDict []) => Ok d
    | Some (PStr EmptyString) => Ok d
    | Some _ => Raise PyTypeError
    end
  else Ok d.

(** [fix_types(tool)]: the tool as the call leaves it.  [limit] is the
    number of nested calls of [fix_types] that the interpreter still accepts
    when the call is made (what [sys.getrecursionlimit()] leaves above the
    stack of the caller): the call takes one, each call on the app of a
    step is made with one less, and a call made with none left raises the
    recursion error, which goes up through the calls around it.  The state
    reached when an exception is raised is not kept. *)
Fixpoint fix_types (limit : nat) (tool : pyobj) : pyrun pyobj :=
  match limit with
  | O => RecursionError
  | S limit' =>
      match tool with
      | PDict d =>
          bind (fix_container d) (fun d =>
          let d := if dict_has d "@type" then d
                   else dict_set d "@type" (PStr "CommandLineTool") in
          bind (fix_steps (fix_types limit') d) (fun d =>
          Ok (PDict (fix_schema "outputs" (fix_schema "inputs" d)))))
      | _ => Raise PyAttributeError
      end
  end.

(** [update_paths(job, inputs)]: [job] as the call leaves it and returns
    it. *)
Definition update_paths_step (src : list (string * pyobj)) (job : pyobj)
  (inp : string) : pyrun pyobj :=
  match dict_get src inp with
  | None => Raise (PyKeyError inp)
  | Some v =>
      match job with
      | PDict dj =>
          match dict_get dj "inputs" with
          | None => Raise (PyKeyError "inputs")
          | Some (PDict target) =>
              Ok (PDict (dict_set dj "inputs" (PDict (dict_set target inp v))))
          | Some _ => Raise PyTypeError
          end
      | _ => Raise PyTypeError
      end
  end.

Fixpoint update_paths_loop (src : list (string * pyobj)) (keys : list string)
  (job : pyobj) : pyrun pyobj :=
  match keys with
  | [] => Ok job
  | inp :: rest => bind (update_paths_step src job inp) (update_paths_loop src rest)
  end.

Definition update_paths (job inputs : pyobj) : pyrun pyobj :=
  match inputs with
  | PDict di =>
      match dict_get di "inputs" with
      | None => Raise (PyKeyError "inputs")
      | Some (PDict src) => update_paths_loop src (map fst src) job
      | Some _ => Raise PyAttributeError
      end
  | _ => Raise PyTypeError
  end.

(** The nesting of lists and dicts in a value. *)
Fixpoint depth (o : pyobj) : nat :=
  match o with
  | PList l => S (fold_right (fun x acc => Nat.max (depth x) acc) O l)
  | PDict d =>
      S (fold_right (fun (kv : string * pyobj) acc =>
                       Nat.max (depth (snd kv)) acc) O d)
  | _ => O
  end.

(** A workflow whose only step runs a workflow, and so on [n] times down to
    a tool without steps. *)
Fixpoint nested_workflow (n : nat) : pyobj :=
  match n with
  | O => PDict [("@type", PStr "CommandLineTool")]
  | S n' =>
      PDict [("@type", PStr "Workflow");
             ("steps", PList [PDict [("app", nested_workflow n')]])]
  end%string.

(** A workflow with one docker step and an empty inputs schema, and a job
    with inputs, for the examples. *)
Definition demo_tool : pyobj :=
  PDict [("@type", PStr "Workflow");
         ("steps",
          PList [PDict [("id", PStr "s1");
                        ("app",
                         PDict [("requirements",
                                 PDict [("environment",
                                         PDict [("container",
                                                 PDict [("type", PStr "docker");
                                                        ("uri", PStr "img")])])]);
                                ("inputs", PDict [("type", PStr "object")])])]]);
         ("outputs", PList [])]%string.

(** The workflow above as [fix_types] leaves it. *)
Definition demo_tool_fixed : pyobj :=
  Eval vm_compute in
    match fix_types 5 demo_tool with
    | Ok tool => tool
    | _ => PNone
    end.

(** The job below once [demo_inputs] are merged into it. *)
Definition demo_job_updated : pyobj :=
  PDict [("app", PStr "http://example.com/app.json");
         ("inputs", PDict [("x", PInt 1); ("y", PStr "new");
                           ("z", PDict [("path", PStr "f")])])]%string.

Definition demo_job : pyobj :=
  PDict [("app", PStr "http://example.com/app.json");
         ("inputs", PDict [("x", PInt 1); ("y", PStr "old")])]%string.

Definition demo_inputs : pyobj :=
  PDict [("inputs", PDict [("y", PStr "new"); ("z", PDict [("path", PStr "f")])])]%string.

(** * Properties *)

(** ** The resource ledger *)

Section LedgerFacts.

Variable CPU_ALL : Z.

Local Abbreviation acquire := (acquire_resources CPU_ALL).
Local Abbreviation release := (release_resources CPU_ALL).

Ltac unfold_acquire :=
  unfold acquire_resources, set_available_ram, set_available_cpu,
    set_multi_cpu_lock; cbn [fst snd available_ram available_cpu total_ram
                               total_cpu multi_cpu_lock].

(** The three guards of [acquire_resources], as the code evaluates them:
    the third one is tried for every request that passed the first two. *)
Lemma acquire_resources_false (self : Ledger) (res : Resources) :
  fst (acquire self res) = false <->
  mem_mb res > available_ram self \/
  (cpu res = CPU_ALL /\
   (multi_cpu_lock self = true \/ available_cpu self <> total_cpu self)) \/
  cpu res > available_cpu self.
Proof.
  unfold_acquire.
  destruct (Z.gtb_spec (mem_mb res) (available_ram self)) as [Hm | Hm];
    [ cbn; split; [ intros _; left; lia | reflexivity ] | ].
  destruct (Z.eqb_spec (cpu res) CPU_ALL) as [Hc | Hc];
    destruct (multi_cpu_lock self) eqn:Hl;
    destruct (Z.eqb_spec (available_cpu self) (total_cpu self)) as [Ha | Ha];
    destruct (Z.gtb_spec (cpu res) (available_cpu self)) as [Hg | Hg];
    cbn; split; intros Hyp; try reflexivity; try discriminate; try tauto.
  all: try (right; right; lia).
  all: try (right; left; split; [ assumption | tauto ]).
  all: destruct Hyp as [Hyp | [[Hyp1 Hyp] | Hyp]]; try lia; try congruence;
    destruct Hyp; congruence.
Qed.

Lemma acquire_resources_true (self : Ledger) (res : Resources) :
  fst (acquire self res) = true ->
  snd (acquire self res) =
    {| total_ram := total_ram self;
       total_cpu := total_cpu self;
       available_ram := available_ram self - mem_mb res;
       available_cpu :=
         if cpu res =? CPU_ALL then available_cpu self
         else available_cpu self - cpu res;
       multi_cpu_lock :=
         if cpu res =? CPU_ALL then true else multi_cpu_lock self |}.
Proof.
  unfold_acquire.
  destruct (mem_mb res >? available_ram self); [ discriminate | ].
  destruct (cpu res =? CPU_ALL); cbn [andb].
  - destruct (multi_cpu_lock self || negb (available_cpu self =? total_cpu self));
      [ discriminate | ].
    destruct (cpu res >? available_cpu self); [ discriminate | reflexivity ].
  - destruct (cpu res >? available_cpu self); [ discriminate | reflexivity ].
Qed.

(** C2: [acquire_resources] returns False exactly in the three cases of the
    admission algorithm, and on acceptance takes the memory and either sets
    the lock or takes the cores.  The sentinel [CPU_ALL] is not a core
    count above the machine's. *)
Theorem acquire_resources_spec (self : Ledger) (res : Resources) :
  CPU_ALL <= total_cpu self ->
  (fst (acquire self res) = false <->
   mem_mb res > available_ram self \/
   (cpu res = CPU_ALL /\
    (multi_cpu_lock self = true \/ available_cpu self <> total_cpu self)) \/
   (cpu res <> CPU_ALL /\ cpu res > available_cpu self)) /\
  (fst (acquire self res) = true ->
   snd (acquire self res) =
     {| total_ram := total_ram self;
        total_cpu := total_cpu self;
        available_ram := available_ram self - mem_mb res;
        available_cpu :=
          if cpu res =? CPU_ALL then available_cpu self
          else available_cpu self - cpu res;
        multi_cpu_lock :=
          if cpu res =? CPU_ALL then true else multi_cpu_lock self |}).
Proof.
  intros Hall. split; [ | apply acquire_resources_true ].
  rewrite acquire_resources_false. split.
  - intros [Hm | [Hx | Hg]]; [ now left | now right; left | ].
    destruct (Z.eq_dec (cpu res) CPU_ALL) as [Hc | Hc]; [ | now right; right ].
    right; left. split; [ exact Hc | ].
    destruct (multi_cpu_lock self); [ now left | right ].
    intros Ha. lia.
  - intros [Hm | [Hx | [_ Hg]]]; [ now left | now right; left | now right; right ].
Qed.

(** Every [return False] comes before the first assignment. *)
Lemma acquire_resources_rejected (self : Ledger) (res : Resources) :
  fst (acquire self res) = false -> snd (acquire self res) = self.
Proof.
  unfold acquire_resources.
  destruct (mem_mb res >? available_ram self); [ reflexivity | ].
  destruct ((cpu res =? CPU_ALL) &&
            (multi_cpu_lock self || negb (available_cpu self =? total_cpu self)));
    [ reflexivity | ].
  destruct (cpu res >? available_cpu self); [ reflexivity | ].
  cbn. discriminate.
Qed.

(** C10: when [acquire_resources] returns False, the available cores, the
    available RAM and the lock are as they were before the call. *)
Theorem acquire_resources_rejection_atomic (self : Ledger) (res : Resources) :
  fst (acquire self res) = false ->
  snd (acquire self res) = self /\
  available_cpu (snd (acquire self res)) = available_cpu self /\
  available_ram (snd (acquire self res)) = available_ram self /\
  multi_cpu_lock (snd (acquire self res)) = multi_cpu_lock self.
Proof.
  intros Hrej. rewrite (acquire_resources_rejected self res Hrej).
  repeat split.
Qed.

Lemma release_resources_fields (self : Ledger) (res : Resources) :
  total_ram (release self res) = total_ram self /\
  total_cpu (release self res) = total_cpu self /\
  available_ram (release self res) = available_ram self + mem_mb res /\
  available_cpu (release self res) =
    available_cpu self + (if cpu res =? CPU_ALL then 0 else cpu res).
Proof.
  unfold release_resources. destruct (cpu res =? CPU_ALL); cbn; repeat split; lia.
Qed.

Lemma acquire_resources_fields (self : Ledger) (res : Resources) :
  fst (acquire self res) = true ->
  mem_mb res <= available_ram self /\
  cpu res <= available_cpu self /\
  total_ram (snd (acquire self res)) = total_ram self /\
  total_cpu (snd (acquire self res)) = total_cpu self /\
  available_ram (snd (acquire self res)) = available_ram self - mem_mb res /\
  available_cpu (snd (acquire self res)) =
    available_cpu self - (if cpu res =? CPU_ALL then 0 else cpu res).
Proof.
  intros Hok. rewrite (acquire_resources_true self res Hok). cbn.
  assert (Hno : ~ (mem_mb res > available_ram self \/
                   (cpu res = CPU_ALL /\
                    (multi_cpu_lock self = true \/
                     available_cpu self <> total_cpu self)) \/
                   cpu res > available_cpu self)).
  { intros Hrej. apply acquire_resources_false in Hrej. congruence. }
  destruct (cpu res =? CPU_ALL); repeat split; lia.
Qed.

(** A successful acquisition followed at once by the release of the same
    request gives back the ledger, lock included. *)
Lemma release_after_acquire (self : Ledger) (res : Resources) :
  fst (acquire self res) = true -> release (snd (acquire self res)) res = self.
Proof.
  intros Hok. rewrite (acquire_resources_true self res Hok).
  assert (Hno : ~ (mem_mb res > available_ram self \/
                   (cpu res = CPU_ALL /\
                    (multi_cpu_lock self = true \/
                     available_cpu self <> total_cpu self)) \/
                   cpu res > available_cpu self)).
  { intros Hrej. apply acquire_resources_false in Hrej. congruence. }
  unfold release_resources, set_available_ram, set_available_cpu,
    set_multi_cpu_lock.
  destruct self as [tr tc ar ac lk]; cbn in *.
  destruct (Z.eqb_spec (cpu res) CPU_ALL) as [Hc | Hc]; cbn.
  - destruct lk; [ exfalso; apply Hno; right; left; tauto | ].
    f_equal; lia.
  - f_equal; lia.
Qed.

Lemma held_forget (task : string) (held : admitted) (res : Resources) :
  recorded task held = Some res ->
  held_cpu CPU_ALL held =
    (if cpu res =? CPU_ALL then 0 else cpu res) + held_cpu CPU_ALL (forget task held) /\
  held_ram held = mem_mb res + held_ram (forget task held).
Proof.
  induction held as [| [t r] rest IH]; cbn; [ discriminate | ].
  destruct (String.eqb t task).
  - intros [= ->]. split; reflexivity.
  - intros Hrec. destruct (IH Hrec) as [Hc Hm]. cbn. split; lia.
Qed.

Lemma wf_forget (task : string) (held : admitted) :
  Forall (fun p => wf_request CPU_ALL (snd p)) held ->
  Forall (fun p => wf_request CPU_ALL (snd p)) (forget task held).
Proof.
  induction 1 as [| [t r] rest Hr Hrest IH]; cbn; [ constructor | ].
  destruct (String.eqb t task); [ assumption | constructor; assumption ].
Qed.

Lemma wf_recorded (task : string) (held : admitted) (res : Resources) :
  recorded task held = Some res ->
  Forall (fun p => wf_request CPU_ALL (snd p)) held -> wf_request CPU_ALL res.
Proof.
  intros Hrec Hall. induction Hall as [| [t r] rest Hr Hrest IH]; cbn in Hrec;
    [ discriminate | ].
  destruct (String.eqb t task); [ now injection Hrec as <- | now apply IH ].
Qed.

Lemma held_nonneg (held : admitted) :
  Forall (fun p => wf_request CPU_ALL (snd p)) held ->
  0 <= held_cpu CPU_ALL held /\ 0 <= held_ram held.
Proof.
  induction 1 as [| [t r] rest [Hm Hc] Hrest [IHc IHm]]; cbn in *; [ lia | ].
  destruct (Z.eqb_spec (cpu r) CPU_ALL); split; lia.
Qed.

Lemma protocol_step_conserved (st st' : Ledger * admitted) (c : call) :
  wf_call CPU_ALL c -> conserved CPU_ALL st -> protocol_step CPU_ALL st c = Some st' ->
  conserved CPU_ALL st' /\ total_cpu (fst st') = total_cpu (fst st) /\
  total_ram (fst st') = total_ram (fst st).
Proof.
  destruct st as [self held]. unfold conserved. cbn [fst snd].
  intros Hwf (Hcpu & Hram & Hc0 & Hr0 & Hheld). destruct c as [task res | task]; cbn.
  - destruct (acquire self res) as [ok self'] eqn:Hacq.
    intros [= <-]. cbn [fst snd]. destruct ok.
    + assert (Hok : fst (acquire self res) = true) by now rewrite Hacq.
      destruct (acquire_resources_fields self res Hok)
        as (Hm & Hc & Htr & Htc & Har & Hac).
      rewrite Hacq in Htr, Htc, Har, Hac. cbn [snd] in Htr, Htc, Har, Hac.
      cbn [held_cpu held_ram]. destruct Hwf as [Hwm Hwc].
      repeat split; try lia.
      * destruct (Z.eqb_spec (cpu res) CPU_ALL); lia.
      * constructor; [ split; assumption | assumption ].
    + assert (Hrej : fst (acquire self res) = false) by now rewrite Hacq.
      apply acquire_resources_rejected in Hrej.
      rewrite Hacq in Hrej. cbn [snd] in Hrej. subst self'.
      repeat split; assumption || reflexivity.
  - destruct (recorded task held) as [res |] eqn:Hrec; [ | discriminate ].
    intros [= <-]. cbn [fst snd].
    destruct (held_forget task held res Hrec) as [Hhc Hhm].
    destruct (release_resources_fields self res) as (Htr & Htc & Har & Hac).
    pose proof (wf_forget task held Hheld) as Hwf'.
    destruct (held_nonneg _ Hwf') as [Hn1 Hn2].
    destruct (wf_recorded task held res Hrec Hheld) as [Hwm Hwc].
    assert (Hres : 0 <= (if cpu res =? CPU_ALL then 0 else cpu res))
      by (destruct (Z.eqb_spec (cpu res) CPU_ALL); lia).
    repeat split; try lia; try assumption.
Qed.

Lemma run_protocol_conserved (calls : list call) :
  forall st st', Forall (wf_call CPU_ALL) calls -> conserved CPU_ALL st ->
  run_protocol CPU_ALL calls st = Some st' ->
  conserved CPU_ALL st' /\ total_cpu (fst st') = total_cpu (fst st) /\
  total_ram (fst st') = total_ram (fst st).
Proof.
  induction calls as [| c rest IH]; intros st st' Hwf Hinv; cbn.
  - intros [= <-]. split; [ assumption | split; reflexivity ].
  - destruct (protocol_step CPU_ALL st c) as [st1 |] eqn:Hstep; [ | discriminate ].
    inversion Hwf as [| ? ? Hc Hrest]; subst.
    destruct (protocol_step_conserved st st1 c Hc Hinv Hstep) as (Hinv1 & Htc & Htr).
    intros Hrun. destruct (IH st1 st' Hrest Hinv1 Hrun) as (Hinv' & Htc' & Htr').
    split; [ assumption | split; congruence ].
Qed.

(** C3: along every sequence of acquisitions and matching releases on a
    fresh ledger, the available cores plus the cores held by the admitted
    non-exclusive tasks are the total, the same for RAM, both stay within
    0 and the total, and a release gives back exactly what the acquisition
    of the same request took. *)
Theorem ledger_conservation (ram ncpu : Z) (calls : list call)
  (self : Ledger) (held : admitted) :
  0 <= ram -> 0 <= ncpu -> Forall (wf_call CPU_ALL) calls ->
  run_protocol CPU_ALL calls (init_ledger ram ncpu, []) = Some (self, held) ->
  (total_cpu self = ncpu /\ total_ram self = ram /\
   available_cpu self + held_cpu CPU_ALL held = total_cpu self /\
   available_ram self + held_ram held = total_ram self /\
   0 <= available_cpu self <= total_cpu self /\
   0 <= available_ram self <= total_ram self) /\
  (forall before later res,
     fst (acquire before res) = true ->
     release (snd (acquire before res)) res = before /\
     available_ram (release later res) - available_ram later =
       available_ram before - available_ram (snd (acquire before res)) /\
     available_cpu (release later res) - available_cpu later =
       available_cpu before - available_cpu (snd (acquire before res))).
Proof.
  intros Hram Hcpu Hwf Hrun. split.
  - assert (Hinit : conserved CPU_ALL (init_ledger ram ncpu, [])).
    { unfold conserved; cbn. repeat split; try lia. constructor. }
    destruct (run_protocol_conserved calls _ _ Hwf Hinit Hrun)
      as ((Hc & Hr & Hc0 & Hr0 & Hheld) & Htc & Htr).
    cbn [fst snd init_ledger total_cpu total_ram] in *.
    destruct (held_nonneg _ Hheld) as [Hn1 Hn2].
    repeat split; lia.
  - intros before later res Hok. split; [ now apply release_after_acquire | ].
    destruct (acquire_resources_fields before res Hok) as (_ & _ & _ & _ & Har & Hac).
    destruct (release_resources_fields later res) as (_ & _ & Har' & Hac').
    split; lia.
Qed.

End LedgerFacts.

(** The lock only stands in the way of exclusive requests: with the lock
    set, a request for a number of cores is admitted when it fits. *)
Lemma acquire_resources_under_lock (CPU_ALL : Z) (self : Ledger) (res : Resources) :
  multi_cpu_lock self = true -> cpu res <> CPU_ALL ->
  mem_mb res <= available_ram self -> cpu res <= available_cpu self ->
  fst (acquire_resources CPU_ALL self res) = true.
Proof.
  intros Hlock Hc Hm Hcpu.
  destruct (fst (acquire_resources CPU_ALL self res)) eqn:Hacq; [ reflexivity | ].
  apply acquire_resources_false in Hacq.
  destruct Hacq as [Hrej | [[Hrej _] | Hrej]]; [ lia | contradiction | lia ].
Qed.

(** C1, where the code departs from it: on a machine with 4 cores and
    1000 MB an exclusive (CPU_ALL) task is admitted and sets the lock; the
    next request, for one core, is admitted as well, so both tasks are
    admitted at once. *)
Theorem exclusive_lock_admits_other_task :
  run_protocol (-1) Demo.exclusive_then_single (init_ledger 1000 4, []) =
  Some ({| total_ram := 1000; total_cpu := 4;
           available_ram := 800; available_cpu := 3;
           multi_cpu_lock := true |},
        [("y"%string, mkResources 100 1); ("x"%string, mkResources 100 (-1))]).
Proof. reflexivity. Qed.

Lemma acquire_resources_spec_witness :
  -1 <= total_cpu (init_ledger 1000 4) /\
  snd (acquire_resources (-1) (init_ledger 1000 4) (mkResources 100 (-1))) =
    {| total_ram := 1000; total_cpu := 4;
       available_ram := 900; available_cpu := 4; multi_cpu_lock := true |}.
Proof.
  split; [ cbn; lia | ].
  apply (acquire_resources_spec (-1) (init_ledger 1000 4) (mkResources 100 (-1)));
    [ cbn; lia | reflexivity ].
Defined.

Lemma acquire_resources_rejection_atomic_witness :
  fst (acquire_resources (-1) (init_ledger 1000 4) (mkResources 100 5)) = false /\
  snd (acquire_resources (-1) (init_ledger 1000 4) (mkResources 100 5)) =
    init_ledger 1000 4.
Proof.
  split; [ reflexivity | ].
  apply (acquire_resources_rejection_atomic (-1)). reflexivity.
Defined.

Lemma ledger_conservation_witness :
  run_protocol (-1) Demo.busy_calls (init_ledger 1000 4, []) =
    Some ({| total_ram := 1000; total_cpu := 4;
             available_ram := 800; available_cpu := 3;
             multi_cpu_lock := false |},
          [("b"%string, mkResources 200 1)]) /\
  3 + held_cpu (-1) [("b"%string, mkResources 200 1)] = 4.
Proof.
  split; [ reflexivity | ].
  assert (Hwf : Forall (wf_call (-1)) Demo.busy_calls).
  { unfold Demo.busy_calls.
    repeat (apply Forall_cons;
            [ first [ exact I | unfold wf_call, wf_request; cbn; lia ] | ]).
    apply Forall_nil. }
  assert (Hram : 0 <= 1000) by lia.
  assert (Hcpu : 0 <= 4) by lia.
  exact (proj1 (proj2 (proj2 (proj1
           (ledger_conservation (-1) 1000 4 Demo.busy_calls _ _
              Hram Hcpu Hwf eq_refl))))).
Defined.

(** ** [Engine]: the job status *)

Section EngineFacts.

Context {H : Host}.

Local Abbreviation job := (@Engine.job H).

Local Abbreviation ready_of :=
  (fun (self : Engine.t) (k : string) =>
     get_ready_tasks (Job.tasks (Engine.job_objects self k))
                     (Job.objects (Engine.job_objects self k))).

(** What the loop of [_update_jobs_check_ready] writes: the status of the
    jobs it visits that have nothing ready, from the statuses of their
    tasks alone. *)
Lemma _update_jobs_loop_spec (keys : list string) :
  forall (has_ready : bool) (self : Engine.t),
    let self' := snd (Engine._update_jobs_loop keys has_ready self) in
    (forall k, Job.tasks (Engine.job_objects self' k) =
                 Job.tasks (Engine.job_objects self k) /\
               Job.objects (Engine.job_objects self' k) =
                 Job.objects (Engine.job_objects self k)) /\
    (forall k, In k keys -> ready_of self k = [] ->
               Job.status (Engine.job_objects self' k) =
                 if Engine.any_unfinished (Engine.job_objects self k)
                 then Job.FAILED else Job.FINISHED) /\
    (forall k, ~ In k keys \/ ready_of self k <> [] ->
               Job.status (Engine.job_objects self' k) =
                 Job.status (Engine.job_objects self k)).
Proof.
  induction keys as [| k0 rest IH]; intros has_ready self; cbn zeta.
  - cbn. repeat split; tauto || reflexivity.
  - cbn [Engine._update_jobs_loop].
    destruct (get_ready_tasks (Job.tasks (Engine.job_objects self k0))
                              (Job.objects (Engine.job_objects self k0)))
      as [| tid ready] eqn:Hready.
    + set (j' := Job.set_status _ (Engine.job_objects self k0)).
      destruct (IH has_ready (Engine.set_job k0 j' self)) as (Hsame & Hset & Hkeep).
      assert (Hobj : forall k,
                 Job.tasks (Engine.job_objects (Engine.set_job k0 j' self) k) =
                   Job.tasks (Engine.job_objects self k) /\
                 Job.objects (Engine.job_objects (Engine.set_job k0 j' self) k) =
                   Job.objects (Engine.job_objects self k)).
      { intros k. cbn. destruct (String.eqb_spec k k0) as [-> | _];
          split; reflexivity. }
      assert (Hunf : forall k,
                 Engine.any_unfinished (Engine.job_objects (Engine.set_job k0 j' self) k) =
                 Engine.any_unfinished (Engine.job_objects self k)).
      { intros k. unfold Engine.any_unfinished.
        destruct (Hobj k) as [-> ->]. reflexivity. }
      assert (Hrdy : forall k, ready_of (Engine.set_job k0 j' self) k = ready_of self k).
      { intros k. cbn beta. destruct (Hobj k) as [-> ->]. reflexivity. }
      split; [ | split ].
      * intros k. destruct (Hsame k) as [-> ->]. apply Hobj.
      * intros k Hin Hk.
        destruct (in_dec string_dec k rest) as [Hrest | Hrest].
        -- rewrite (Hset k Hrest); [ now rewrite Hunf | now rewrite Hrdy ].
        -- rewrite (Hkeep k (or_introl Hrest)).
           destruct Hin as [<- | Hin]; [ | contradiction ].
           cbn. rewrite String.eqb_refl. reflexivity.
      * intros k Hk.
        assert (Hne : k <> k0).
        { intros ->. destruct Hk as [Hk | Hk];
            [ apply Hk; now left | now apply Hk ]. }
        rewrite Hkeep.
        -- cbn. destruct (String.eqb_spec k k0); [ contradiction | reflexivity ].
        -- rewrite Hrdy. destruct Hk as [Hk | Hk]; [ left | now right ].
           intros Hin. apply Hk. now right.
    + destruct (IH true self) as (Hsame & Hset & Hkeep).
      split; [ exact Hsame | split ].
      * intros k Hin Hk.
        destruct (in_dec string_dec k rest) as [Hrest | Hrest];
          [ now apply Hset | ].
        destruct Hin as [<- | Hin]; [ | contradiction ].
        cbn beta in Hk. rewrite Hready in Hk. discriminate.
      * intros k Hk.
        destruct (in_dec string_dec k rest) as [Hrest | Hrest].
        -- apply Hkeep. right. destruct Hk as [Hk | Hk]; [ | exact Hk ].
           exfalso. apply Hk. now right.
        -- apply Hkeep. now left.
Qed.

Lemma _update_jobs_loop_jobs (keys : list string) :
  forall (has_ready : bool) (self : Engine.t),
    Engine.jobs (snd (Engine._update_jobs_loop keys has_ready self)) =
    Engine.jobs self.
Proof.
  induction keys as [| k0 rest IH]; intros has_ready self;
    cbn [Engine._update_jobs_loop]; [ reflexivity | ].
  destruct (get_ready_tasks _ _); [ now rewrite IH | apply IH ].
Qed.

(** The boolean of [_update_jobs_check_ready] is False only when no job it
    has visited has a ready task. *)
Lemma _update_jobs_loop_has_ready (keys : list string) :
  forall (has_ready : bool) (self : Engine.t),
    fst (Engine._update_jobs_loop keys has_ready self) = false ->
    has_ready = false /\ forall k, In k keys -> ready_of self k = [].
Proof.
  induction keys as [| k0 rest IH]; intros has_ready self;
    cbn [Engine._update_jobs_loop].
  - cbn. intros ->. split; [ reflexivity | contradiction ].
  - destruct (get_ready_tasks (Job.tasks (Engine.job_objects self k0))
                              (Job.objects (Engine.job_objects self k0)))
      as [| tid ready] eqn:Hready.
    + intros Hfst. destruct (IH _ _ Hfst) as [Hhr Hrest].
      split; [ exact Hhr | ].
      intros k Hk. destruct (string_dec k k0) as [Heq | Hne].
      * rewrite Heq. exact Hready.
      * destruct Hk as [Heq | Hin]; [ now elim Hne | ].
        specialize (Hrest k Hin). cbn in Hrest.
        destruct (String.eqb_spec k k0); [ contradiction | exact Hrest ].
    + intros Hfst. destruct (IH _ _ Hfst) as [Hhr _]. discriminate.
Qed.

(** The status a recomputation gives to a job with nothing ready: FAILED as
    soon as one of its tasks is not FINISHED, be it only because it is
    still RUNNING. *)
Lemma job_status_recomputed (self : Engine.t) (k : string) :
  In k (Engine.jobs self) -> ready_of self k = [] ->
  let j := Engine.job_objects self k in
  let j' := Engine.job_objects (snd (Engine._update_jobs_check_ready self)) k in
  (Job.status j' = Job.FINISHED <->
   forall tid, In tid (iter_tasks (Job.tasks j)) ->
               Task.status (Job.objects j tid) = Task.FINISHED) /\
  (Job.status j' = Job.FAILED <->
   exists tid, In tid (iter_tasks (Job.tasks j)) /\
               Task.status (Job.objects j tid) <> Task.FINISHED).
Proof.
  intros Hin Hready j j'. subst j'.
  unfold Engine._update_jobs_check_ready.
  destruct (_update_jobs_loop_spec (Engine.jobs self) false self) as (_ & Hset & _).
  rewrite (Hset k Hin Hready). fold j.
  assert (Hdec : forall s, Task.status_eqb s Task.FINISHED = true <-> s = Task.FINISHED).
  { intros []; cbn; split; congruence. }
  unfold Engine.any_unfinished.
  destruct (existsb _ (iter_tasks (Job.tasks j))) eqn:Hex.
  - apply existsb_exists in Hex. destruct Hex as (tid & Htid & Hneg).
    apply negb_true_iff in Hneg.
    assert (Hne : Task.status (Job.objects j tid) <> Task.FINISHED).
    { intros Heq. apply Hdec in Heq. congruence. }
    split; split; try discriminate; try reflexivity.
    + intros Hall. elim Hne. now apply Hall.
    + intros _. now exists tid.
  - split; split; try discriminate; try reflexivity.
    + intros _ tid Htid. apply Hdec.
      destruct (Task.status_eqb _ Task.FINISHED) eqn:Heq; [ reflexivity | ].
      assert (Hex' : existsb
                (fun tid => negb (Task.status_eqb (Task.status (Job.objects j tid))
                                                  Task.FINISHED))
                (iter_tasks (Job.tasks j)) = true).
      { apply existsb_exists. exists tid. now rewrite Heq. }
      congruence.
    + intros (tid & Htid & Hne).
      assert (Hex' : existsb
                (fun tid => negb (Task.status_eqb (Task.status (Job.objects j tid))
                                                  Task.FINISHED))
                (iter_tasks (Job.tasks j)) = true).
      { apply existsb_exists. exists tid. split; [ exact Htid | ].
        apply negb_true_iff.
        destruct (Task.status_eqb _ Task.FINISHED) eqn:Heq; [ | reflexivity ].
        apply Hdec in Heq. contradiction. }
      congruence.
Qed.

End EngineFacts.

(** ** [SequentialEngine] *)

Lemma app_eq_snoc2 {A : Type} (pre post ext0 : list A) (a b c : A) :
  pre ++ a :: post = ext0 ++ [b; c] ->
  (post = [] /\ a = c /\ pre = ext0 ++ [b]) \/
  (post = [c] /\ a = b /\ pre = ext0) \/
  (exists post', post = post' ++ [b; c] /\ ext0 = pre ++ a :: post').
Proof.
  intros Heq.
  destruct post as [| z post1 _] using rev_ind.
  - left. change (ext0 ++ [b; c]) with (ext0 ++ [b] ++ [c]) in Heq.
    rewrite app_assoc in Heq. apply app_inj_tail in Heq. tauto.
  - right.
    change (ext0 ++ [b; c]) with (ext0 ++ [b] ++ [c]) in Heq.
    rewrite app_assoc in Heq.
    change (pre ++ a :: post1 ++ [z]) with (pre ++ (a :: post1) ++ [z]) in Heq.
    rewrite app_assoc in Heq. apply app_inj_tail in Heq. destruct Heq as [Heq ->].
    destruct post1 as [| y post2 _] using rev_ind.
    + left. apply app_inj_tail in Heq. cbn. tauto.
    + right. exists post2.
      change (pre ++ a :: post2 ++ [y]) with (pre ++ (a :: post2) ++ [y]) in Heq.
      rewrite app_assoc in Heq. apply app_inj_tail in Heq. destruct Heq as [Heq ->].
      split; [ now rewrite <- app_assoc | now symmetry ].
Qed.

Section SequentialFacts.

Context {H : Host}.

Local Abbreviation task := (@Engine.task H).
Local Abbreviation job := (@Engine.job H).
Local Abbreviation event := (@Engine.event H).

Lemma successes_app (l1 l2 : list event) :
  Trace.successes l1 -> Trace.successes l2 -> Trace.successes (l1 ++ l2).
Proof.
  induction 1 as [| tk v rest Hrest IH]; intros H2; cbn; [ assumption | ].
  constructor. now apply IH.
Qed.

(** In a run of successes every call of a runner returned, the call of
    [before_task] comes just before it and that of [after_task] just after. *)
Lemma successes_run_inv (ext pre post : list event) (tk : task)
  (o : outcome value error) :
  Trace.successes ext -> ext = pre ++ Engine.RunnerRun tk o :: post ->
  exists tk0 v pre' post',
    o = Returns v /\ tk = Trace.started tk0 /\
    pre = pre' ++ [Engine.BeforeTask tk0] /\
    post = Engine.AfterTask (Trace.finished v (Trace.started tk0)) :: post'.
Proof.
  intros Hs. revert pre. induction Hs as [| tk0 v0 rest Hrest IH]; intros pre Heq.
  - destruct pre; discriminate.
  - destruct pre as [| p0 [| p1 [| p2 pre3]]]; cbn in Heq.
    + discriminate.
    + inversion Heq; subst.
      exists tk0, v0, [], rest. cbn. repeat split; reflexivity.
    + discriminate.
    + inversion Heq as [[Hp0 Hp1 Hp2 Hrest']]. subst p0 p1 p2.
      destruct (IH pre3 Hrest') as (tk1 & v1 & pre' & post' & -> & -> & -> & ->).
      exists tk1, v1,
        (Engine.BeforeTask tk0 :: Engine.RunnerRun (Trace.started tk0) (Returns v0)
         :: Engine.AfterTask (Trace.finished v0 (Trace.started tk0)) :: pre'), post'.
      repeat split; reflexivity.
Qed.

Lemma run_task_eq (tk : task) (log : list event) :
  SequentialEngine.run_task tk log =
    let tk1 := Trace.started tk in
    let o := run (get_runner tk1) tk1 in
    let log1 := log ++ [Engine.RunnerRun tk1 o] in
    match o with
    | Returns v => Done (Trace.finished v tk1, log1)
    | RaisesException e => Done (Trace.failed e tk1, log1)
    | RaisesBaseException b => Raised (Uncaught b) (tk1, log1)
    end.
Proof. reflexivity. Qed.

Lemma _run_job_for_shape (ready : list string) :
  forall st : job * list event,
  exists ext,
    snd (state_of (SequentialEngine._run_job_for ready st)) = snd st ++ ext /\
    Trace.sequential_shape (SequentialEngine._run_job_for ready st) ext.
Proof.
  induction ready as [| tid rest IH]; intros [j log].
  - exists []. cbn. split; [ now rewrite app_nil_r | constructor ].
  - cbn [SequentialEngine._run_job_for]. rewrite run_task_eq. cbn zeta.
    set (tk := Job.objects j tid).
    destruct (run (get_runner (Trace.started tk)) (Trace.started tk))
      as [v | e | b] eqn:Ho.
    + cbn [Task.status Trace.finished Task.set_status Task.status_eqb].
      destruct (resolve_task tid _ _) as [g h].
      match goal with
      | |- context [SequentialEngine._run_job_for rest ?st'] =>
          destruct (IH st') as (ext & Hlog & Hshape);
          destruct (SequentialEngine._run_job_for rest st')
            as [s | x s | s] eqn:Hrest
      end.
      all: exists (Engine.BeforeTask tk :: Engine.RunnerRun (Trace.started tk) (Returns v)
                   :: Engine.AfterTask (Trace.finished v (Trace.started tk)) :: ext).
      all: cbn [state_of snd] in *; rewrite Hlog; rewrite <- !app_assoc; cbn [app].
      all: split; [ reflexivity | ].
      * now constructor.
      * destruct Hshape as (ext0 & tk' & Hs & Hcase).
        exists (Engine.BeforeTask tk :: Engine.RunnerRun (Trace.started tk) (Returns v)
                :: Engine.AfterTask (Trace.finished v (Trace.started tk)) :: ext0), tk'.
        split; [ now constructor | ].
        destruct Hcase as [(e & -> & ->) | (b & -> & ->)];
          [ left; exists e | right; exists b ]; split; reflexivity.
      * now constructor.
    + cbn [Task.status Trace.failed Task.set_status Task.set_result Task.status_eqb].
      exists (Trace.failure tk (RaisesException e)). cbn [state_of snd].
      split; [ now rewrite <- app_assoc | ].
      exists [], tk. split; [ constructor | ]. left. exists e. split; reflexivity.
    + exists (Trace.failure tk (RaisesBaseException b)). cbn [state_of snd].
      split; [ now rewrite <- app_assoc | ].
      exists [], tk. split; [ constructor | ]. right. exists b. split; reflexivity.
Qed.

Lemma _run_job_shape (fuel : nat) :
  forall st : job * list event,
  exists ext,
    snd (state_of (SequentialEngine._run_job fuel st)) = snd st ++ ext /\
    Trace.sequential_shape (SequentialEngine._run_job fuel st) ext.
Proof.
  induction fuel as [| fuel IH]; intros st; cbn [SequentialEngine._run_job].
  - destruct (get_ready_tasks _ _); exists []; cbn;
      (split; [ now rewrite app_nil_r | constructor ]).
  - destruct (get_ready_tasks _ _) as [| tid ready].
    + exists []; cbn. split; [ now rewrite app_nil_r | constructor ].
    + destruct (_run_job_for_shape (tid :: ready) st) as (ext1 & Hlog1 & Hshape1).
      destruct (SequentialEngine._run_job_for (tid :: ready) st)
        as [s1 | x s1 | s1] eqn:Hfor; cbn [and_then state_of] in *.
      * destruct (IH s1) as (ext2 & Hlog2 & Hshape2).
        exists (ext1 ++ ext2). rewrite Hlog2, Hlog1, app_assoc.
        split; [ reflexivity | ].
        destruct (SequentialEngine._run_job fuel s1) as [s2 | x s2 | s2];
          cbn in *; try now apply successes_app.
        destruct Hshape2 as (ext0 & tk & Hs & Hcase).
        exists (ext1 ++ ext0), tk. split; [ now apply successes_app | ].
        destruct Hcase as [(e & -> & ->) | (b & -> & ->)];
          [ left; exists e | right; exists b ]; rewrite app_assoc; split; reflexivity.
      * exists ext1. split; assumption.
      * exists ext1. split; assumption.
Qed.

(** What the body of the loop of [run_all] makes of a job: FINISHED after
    successes only; FAILED, with the message of the task whose run raised
    an exception, right after that run; and only something that is not an
    [Exception] leaves it. *)
Lemma run_all_body_cases (fuel : nat) (j : job) (log : list event) :
  exists ext,
    snd (state_of (SequentialEngine.run_all_body fuel j log)) = log ++ ext /\
    match SequentialEngine.run_all_body fuel j log with
    | Done (j', _) =>
        (Trace.successes ext /\ Job.status j' = Job.FINISHED) \/
        (exists ext0 tk e,
            Trace.successes ext0 /\
            ext = ext0 ++ Trace.failure tk (RaisesException e) /\
            Job.status j' = Job.FAILED /\
            Job.error_message j' =
              Some (SequentialEngine.failure_message
                      (Trace.failed e (Trace.started tk))))
    | Raised x _ =>
        exists ext0 tk b,
          Trace.successes ext0 /\
          ext = ext0 ++ Trace.failure tk (RaisesBaseException b) /\
          x = Uncaught b
    | Timeout _ => Trace.successes ext
    end.
Proof.
  unfold SequentialEngine.run_all_body.
  destruct (_run_job_shape fuel (Job.set_status Job.RUNNING j, log))
    as (ext & Hlog & Hshape).
  exists ext. cbn [snd] in Hlog.
  destruct (SequentialEngine._run_job fuel (Job.set_status Job.RUNNING j, log))
    as [[j' log'] | x [j' log'] | [j' log']]; cbn in Hlog, Hshape.
  - cbn. split; [ assumption | left; split; [ assumption | reflexivity ] ].
  - destruct Hshape as (ext0 & tk & Hs & [(e & -> & ->) | (b & -> & ->)]); cbn.
    + split; [ assumption | right ].
      exists ext0, tk, e. repeat split; assumption || reflexivity.
    + split; [ assumption | ]. exists ext0, tk, b. repeat split; assumption.
  - cbn. split; assumption.
Qed.


(** Nothing that is an [Exception] leaves [run_all]: a [JobError] is caught
    by the loop, and what a runner raises is caught by [run_task]. *)
Lemma run_all_loop_raised (fuel : nat) (keys : list string) :
  forall (self s : Engine.t) (x : exn error),
    SequentialEngine.run_all_loop fuel keys self = Raised x s ->
    exists b, x = Uncaught b.
Proof.
  induction keys as [| k rest IH]; intros self s x; cbn [SequentialEngine.run_all_loop].
  - discriminate.
  - destruct (negb _); [ apply IH | ].
    destruct (run_all_body_cases fuel (Engine.job_objects self k) (Engine.log self))
      as (ext & _ & Hcases).
    destruct (SequentialEngine.run_all_body fuel _ _) as [st | x' st | st].
    + apply IH.
    + intros [= <- _]. destruct Hcases as (_ & _ & b & _ & _ & ->). now exists b.
    + discriminate.
Qed.

End SequentialFacts.

(** ** [MultiprocessingEngine] *)

Section MultiprocessingFacts.

Context {H : Host}.

Local Abbreviation task := (@Engine.task H).
Local Abbreviation job := (@Engine.job H).
Local Abbreviation event := (@Engine.event H).
Local Abbreviation engine := (@MultiprocessingEngine.t H).

Local Abbreviation log_of :=
  (fun self : engine => Engine.log (MultiprocessingEngine.base self)).

(** The statements after the [try] of [process_result] call [after_task]
    first and touch neither the log afterwards nor [self.running]. *)
Lemma process_result_rest_log (k tid : string) (tk : task) (self : engine) :
  log_of (state_of (MultiprocessingEngine.process_result_rest k tid tk self)) =
    log_of self ++ [Engine.AfterTask tk] /\
  MultiprocessingEngine.running
    (state_of (MultiprocessingEngine.process_result_rest k tid tk self)) =
    MultiprocessingEngine.running self.
Proof.
  unfold MultiprocessingEngine.process_result_rest.
  destruct (Task.resources tk) as [res |]; [ | split; reflexivity ].
  cbn. destruct (resolve_task tid _ _) as [g h]. split; reflexivity.
Qed.

(** What [process_result] shows to the hooks, for each way the fetch of the
    result ends. *)
Lemma process_result_log (k tid : string) (o : outcome value error) (self : engine) :
  let tk := MultiprocessingEngine.get_task k tid self in
  log_of (state_of (MultiprocessingEngine.process_result k tid o self)) =
    log_of self ++
    match o with
    | Returns v => [Engine.GetResult tk o; Engine.AfterTask (Trace.finished v tk)]
    | RaisesException e => [Engine.GetResult tk o; Engine.AfterTask (Trace.failed e tk)]
    | RaisesBaseException b => [Engine.GetResult tk o]
    end.
Proof.
  intros tk. unfold MultiprocessingEngine.process_result. fold tk.
  destruct o as [v | e | b].
  - rewrite (proj1 (process_result_rest_log _ _ _ _)). cbn.
    now rewrite <- app_assoc.
  - rewrite (proj1 (process_result_rest_log _ _ _ _)). cbn.
    now rewrite <- app_assoc.
  - reflexivity.
Qed.

(** A failure does not take other tasks out of flight. *)
Lemma process_result_running (k tid : string) (o : outcome value error)
  (self : engine) :
  MultiprocessingEngine.running
    (state_of (MultiprocessingEngine.process_result k tid o self)) =
  MultiprocessingEngine.running self.
Proof.
  unfold MultiprocessingEngine.process_result. destruct o as [v | e | b].
  - now rewrite (proj2 (process_result_rest_log _ _ _ _)).
  - now rewrite (proj2 (process_result_rest_log _ _ _ _)).
  - reflexivity.
Qed.

(** What the body of the loop of [_run_ready_tasks] shows and dispatches:
    nothing when admission fails; else [before_task] on the task (with its
    own resources, or else those its runner asks for), the dispatch right
    after, and one more item in [self.running]. *)
Lemma _run_ready_task_log (k tid : string) (self : engine) :
  let tk0 := MultiprocessingEngine.get_task k tid self in
  let res := match Task.resources tk0 with
             | Some res => res
             | None => get_requirements (get_runner tk0) tk0
             end in
  let tk := match Task.resources tk0 with
            | Some _ => tk0
            | None => Task.set_resources (Some res) tk0
            end in
  let self' := MultiprocessingEngine._run_ready_task k tid self in
  if fst (acquire_resources CPU_ALL (MultiprocessingEngine.ledger self) res)
  then log_of self' =
         log_of self ++ [Engine.BeforeTask tk; Engine.RunTaskAsync (Trace.started tk)] /\
       MultiprocessingEngine.running self' =
         MultiprocessingEngine.running self ++
         [MultiprocessingEngine.mkItem k tid
            (run (get_runner tk0) (Trace.started tk))]
  else log_of self' = log_of self /\
       MultiprocessingEngine.running self' = MultiprocessingEngine.running self.
Proof.
  intros tk0 res tk self'. subst self'.
  unfold MultiprocessingEngine._run_ready_task. fold tk0. fold res. fold tk.
  cbn [MultiprocessingEngine.ledger MultiprocessingEngine.set_task
       MultiprocessingEngine.set_base].
  destruct (acquire_resources CPU_ALL (MultiprocessingEngine.ledger self) res)
    as [ok l].
  destruct ok; cbn; [ | split; reflexivity ].
  split; [ now rewrite <- app_assoc | reflexivity ].
Qed.

(** In [SequentialEngine], [before_task] comes just before every run, and
    [after_task] just after the runs that returned; a run that raised is
    the end of the job's events. *)
Lemma sequential_hooks (fuel : nat) (st : job * list event) (pre post : list event)
  (tk : task) (o : outcome value error) :
  snd (state_of (SequentialEngine._run_job fuel st)) =
    snd st ++ pre ++ Engine.RunnerRun tk o :: post ->
  (exists pre' tk0, pre = pre' ++ [Engine.BeforeTask tk0] /\ tk = Trace.started tk0) /\
  match o with
  | Returns v => exists post', post = Engine.AfterTask (Trace.finished v tk) :: post'
  | _ => post = []
  end.
Proof.
  intros Hlog. destruct (_run_job_shape fuel st) as (ext & Hext & Hshape).
  rewrite Hext in Hlog. apply app_inv_head in Hlog.
  assert (Hin : forall ext1 pre1 post1, Trace.successes ext1 ->
                  ext1 = pre1 ++ Engine.RunnerRun tk o :: post1 ->
                  (exists pre' tk0, pre1 = pre' ++ [Engine.BeforeTask tk0] /\
                                    tk = Trace.started tk0) /\
                  exists v post', o = Returns v /\
                    post1 = Engine.AfterTask (Trace.finished v tk) :: post').
  { intros ext1 pre1 post1 Hs Heq.
    destruct (successes_run_inv _ _ _ _ _ Hs Heq)
      as (tk0 & v & pre' & post' & -> & -> & -> & ->).
    split; [ now exists pre', tk0 | now exists v, post' ]. }
  assert (Hok : forall pre1 post1,
                  (exists pre' tk0, pre1 = pre' ++ [Engine.BeforeTask tk0] /\
                                    tk = Trace.started tk0) /\
                  (exists v post', o = Returns v /\
                     post1 = Engine.AfterTask (Trace.finished v tk) :: post') ->
                  forall tail,
                  (exists pre' tk0, pre1 = pre' ++ [Engine.BeforeTask tk0] /\
                                    tk = Trace.started tk0) /\
                  match o with
                  | Returns v =>
                      exists post', post1 ++ tail =
                                    Engine.AfterTask (Trace.finished v tk) :: post'
                  | _ => post1 ++ tail = []
                  end).
  { intros pre1 post1 [Hpre (v & post' & -> & ->)] tail.
    split; [ exact Hpre | now exists (post' ++ tail) ]. }
  destruct (SequentialEngine._run_job fuel st) as [s | x s | s]; cbn in Hshape.
  - rewrite <- (app_nil_r post). apply Hok. now apply (Hin ext).
  - destruct Hshape as (ext0 & tk0 & Hs & Hcase).
    assert (Hfail : exists o0, ext = ext0 ++ Trace.failure tk0 o0 /\
                               forall v, o0 <> Returns v).
    { destruct Hcase as [(e & -> & _) | (b & -> & _)];
        eexists; (split; [ reflexivity | discriminate ]). }
    destruct Hfail as (o0 & -> & Hno). symmetry in Hlog.
    unfold Trace.failure in Hlog. apply app_eq_snoc2 in Hlog.
    destruct Hlog as [(-> & Hrun & ->) | [(_ & Hrun & _) | (post' & -> & ->)]].
    + injection Hrun as -> ->. split; [ now exists ext0, tk0 | ].
      destruct o0; [ now destruct (Hno v) | reflexivity | reflexivity ].
    + discriminate.
    + apply Hok. now apply (Hin _ _ _ Hs).
  - rewrite <- (app_nil_r post). apply Hok. now apply (Hin ext).
Qed.

(** C5, as the code has it: [before_task] is called just before every
    dispatch, in both engines; [after_task] is called just after every
    completion, by a value or by an exception, in [MultiprocessingEngine],
    and in [SequentialEngine] just after the runs that returned, a run that
    raised being the last event of its job. *)
Theorem hooks_around_tasks :
  (forall (fuel : nat) (st : job * list event) (pre post : list event)
          (tk : task) (o : outcome value error),
     snd (state_of (SequentialEngine._run_job fuel st)) =
       snd st ++ pre ++ Engine.RunnerRun tk o :: post ->
     (exists pre' tk0, pre = pre' ++ [Engine.BeforeTask tk0] /\
                       tk = Trace.started tk0) /\
     match o with
     | Returns v => exists post', post = Engine.AfterTask (Trace.finished v tk) :: post'
     | _ => post = []
     end) /\
  (forall (k tid : string) (self : engine),
     let self' := MultiprocessingEngine._run_ready_task k tid self in
     (log_of self' = log_of self /\
      MultiprocessingEngine.running self' = MultiprocessingEngine.running self) \/
     (exists tk it,
        log_of self' =
          log_of self ++ [Engine.BeforeTask tk; Engine.RunTaskAsync (Trace.started tk)] /\
        MultiprocessingEngine.running self' =
          MultiprocessingEngine.running self ++ [it])) /\
  (forall (k tid : string) (o : outcome value error) (self : engine),
     let tk := MultiprocessingEngine.get_task k tid self in
     log_of (state_of (MultiprocessingEngine.process_result k tid o self)) =
       log_of self ++
       match o with
       | Returns v => [Engine.GetResult tk o; Engine.AfterTask (Trace.finished v tk)]
       | RaisesException e => [Engine.GetResult tk o; Engine.AfterTask (Trace.failed e tk)]
       | RaisesBaseException b => [Engine.GetResult tk o]
       end).
Proof.
  split; [ exact sequential_hooks | split ].
  - intros k tid self self'. subst self'.
    pose proof (_run_ready_task_log k tid self) as Hdisp. cbn zeta in Hdisp.
    destruct (fst (acquire_resources CPU_ALL _ _)).
    + right. destruct Hdisp as [Hlog Hrun]. eexists. eexists. split; eassumption.
    + left. exact Hdisp.
  - exact process_result_log.
Qed.

(** A pass over jobs that have nothing ready dispatches nothing. *)
Lemma _run_ready_tasks_loop_idle (keys : list string) (self : engine) :
  (forall k, In k keys ->
     let j := Engine.job_objects (MultiprocessingEngine.base self) k in
     get_ready_tasks (Job.tasks j) (Job.objects j) = []) ->
  MultiprocessingEngine._run_ready_tasks_loop keys self = self.
Proof.
  induction keys as [| k rest IH]; intros Hidle; cbn; [ reflexivity | ].
  rewrite (Hidle k (or_introl eq_refl)). cbn.
  apply IH. intros k' Hin. apply Hidle. now right.
Qed.

(** With nothing in flight and nothing ready, a pass of [run_all] changes
    nothing and ends in the sleep. *)
Lemma run_all_pass_idle (self : engine) :
  MultiprocessingEngine.running self = [] ->
  (forall k, In k (Engine.jobs (MultiprocessingEngine.base self)) ->
     let j := Engine.job_objects (MultiprocessingEngine.base self) k in
     get_ready_tasks (Job.tasks j) (Job.objects j) = []) ->
  MultiprocessingEngine.run_all_pass self = Done (inr self).
Proof.
  intros Hrun Hidle.
  unfold MultiprocessingEngine.run_all_pass, MultiprocessingEngine._run_ready_tasks.
  rewrite (_run_ready_tasks_loop_idle _ _ Hidle), Hrun. reflexivity.
Qed.

(** So the loop does not return, however many passes it makes. *)
Lemma run_all_idle (fuel : nat) :
  forall self : engine,
    MultiprocessingEngine.running self = [] ->
    (forall k, In k (Engine.jobs (MultiprocessingEngine.base self)) ->
       let j := Engine.job_objects (MultiprocessingEngine.base self) k in
       get_ready_tasks (Job.tasks j) (Job.objects j) = []) ->
    MultiprocessingEngine.run_all fuel self =
      Timeout (MultiprocessingEngine.mk (MultiprocessingEngine.base self) []
                 (MultiprocessingEngine.ledger self)
                 (fuel + MultiprocessingEngine.clock self)).
Proof.
  induction fuel as [| fuel IH]; intros self Hrun Hidle.
  - destruct self as [b r l c]; cbn in Hrun; subst r. reflexivity.
  - cbn [MultiprocessingEngine.run_all].
    rewrite (run_all_pass_idle self Hrun Hidle).
    rewrite (IH (MultiprocessingEngine.tick self) Hrun Hidle).
    cbn. now rewrite Nat.add_succ_r.
Qed.

(** The half of the exit condition that the loop does keep: a pass that
    returns leaves nothing in flight and no job with a ready task. *)
Lemma run_all_pass_returns (self s' : engine) :
  MultiprocessingEngine.run_all_pass self = Done (inl s') ->
  MultiprocessingEngine.running s' = [] /\
  forall k, In k (Engine.jobs (MultiprocessingEngine.base s')) ->
    let j := Engine.job_objects (MultiprocessingEngine.base s') k in
    get_ready_tasks (Job.tasks j) (Job.objects j) = [].
Proof.
  unfold MultiprocessingEngine.run_all_pass.
  destruct (MultiprocessingEngine.poll _ _ _ _) as [[s2 rm] | x [s2 rm] | [s2 rm]];
    try discriminate.
  destruct rm as [| n rm]; [ discriminate | ].
  set (s3 := MultiprocessingEngine.set_running _ s2).
  unfold Engine._update_jobs_check_ready.
  pose proof (_update_jobs_loop_has_ready
                (Engine.jobs (MultiprocessingEngine.base s3)) false
                (MultiprocessingEngine.base s3)) as Hready.
  pose proof (_update_jobs_loop_jobs
                (Engine.jobs (MultiprocessingEngine.base s3)) false
                (MultiprocessingEngine.base s3)) as Hjobs.
  destruct (_update_jobs_loop_spec
              (Engine.jobs (MultiprocessingEngine.base s3)) false
              (MultiprocessingEngine.base s3)) as (Hsame & _ & _).
  destruct (Engine._update_jobs_loop _ false (MultiprocessingEngine.base s3))
    as [has_ready b].
  cbn [fst snd] in *.
  destruct (MultiprocessingEngine.running (MultiprocessingEngine.set_base b s3))
    eqn:Hrun; [ | discriminate ].
  destruct has_ready; [ discriminate | ].
  intros Hdone. injection Hdone as Hdone. subst s'. split; [ exact Hrun | ].
  cbn [MultiprocessingEngine.base MultiprocessingEngine.set_base].
  intros k Hin. cbv zeta. destruct (Hsame k) as [-> ->].
  rewrite Hjobs in Hin. now apply (proj2 (Hready eq_refl)).
Qed.

(** C7, where the code departs from it: [run] with no job on a fresh
    engine.  Nothing is in flight and no job has anything ready, and the
    loop is still going after any number of passes: its [return] is only
    reached in a pass that has processed a result. *)
Theorem run_without_jobs_never_returns (heap : string -> job) (ram ncpu : Z)
  (fuel : nat) :
  MultiprocessingEngine.run fuel [] (MultiprocessingEngine.init heap ram ncpu) =
    Timeout (MultiprocessingEngine.mk (Engine.init heap) []
               (init_ledger ram ncpu) fuel).
Proof.
  unfold MultiprocessingEngine.run. cbn [Engine.register_all fold_left].
  rewrite run_all_idle; cbn; [ now rewrite Nat.add_0_r | reflexivity | tauto ].
Qed.

(** A relation between the engine before and after that every step of
    the loop keeps is kept by [run_all], however it ends. *)
Lemma run_all_keeps (R : engine -> engine -> Prop) :
  (forall s, R s s) ->
  (forall a b c, R a b -> R b c -> R a c) ->
  (forall k tid s, R s (MultiprocessingEngine._run_ready_task k tid s)) ->
  (forall k tid o s, R s (state_of (MultiprocessingEngine.process_result k tid o s))) ->
  (forall rm s, R s (MultiprocessingEngine.set_running
                       (MultiprocessingEngine.keep_unless
                          0 (MultiprocessingEngine.running s) rm) s)) ->
  (forall s, R s (MultiprocessingEngine.set_base
                    (snd (Engine._update_jobs_check_ready (MultiprocessingEngine.base s)))
                    s)) ->
  (forall s, R s (MultiprocessingEngine.tick s)) ->
  forall fuel s, R s (state_of (MultiprocessingEngine.run_all fuel s)).
Proof.
  intros Hrefl Htrans Hdisp Hproc Hrun Hupd Htick.
  assert (Hfold : forall k ready s,
             R s (fold_left (fun s tid => MultiprocessingEngine._run_ready_task k tid s)
                            ready s)).
  { intros k ready. induction ready as [| tid rest IH]; intros s; cbn;
      [ apply Hrefl | ].
    eapply Htrans; [ apply Hdisp | apply IH ]. }
  assert (Hloop : forall keys s,
             R s (MultiprocessingEngine._run_ready_tasks_loop keys s)).
  { induction keys as [| k rest IH]; intros s; cbn; [ apply Hrefl | ].
    eapply Htrans; [ apply Hfold | apply IH ]. }
  assert (Hpoll : forall items ndx rm s,
             R s (fst (state_of (MultiprocessingEngine.poll ndx items rm s)))).
  { induction items as [| it rest IH]; intros ndx rm s;
      cbn [MultiprocessingEngine.poll]; [ apply Hrefl | ].
    destruct (async_result_ready _ _ _); [ | apply IH ].
    pose proof (Hproc (MultiprocessingEngine.item_job it)
                  (MultiprocessingEngine.item_task it)
                  (MultiprocessingEngine.item_result it) s) as Hstep.
    destruct (MultiprocessingEngine.process_result _ _ _ s) as [s1 | x s1 | s1];
      cbn [state_of fst] in *; try exact Hstep.
    eapply Htrans; [ exact Hstep | apply IH ]. }
  assert (Hpass : forall s,
             R s (pass_state (state_of (MultiprocessingEngine.run_all_pass s)))).
  { intros s. unfold MultiprocessingEngine.run_all_pass.
    pose proof (Hloop (Engine.jobs (MultiprocessingEngine.base s)) s) as H1.
    fold (MultiprocessingEngine._run_ready_tasks s) in H1.
    pose proof (Hpoll (MultiprocessingEngine.running
                         (MultiprocessingEngine._run_ready_tasks s)) 0%nat []
                  (MultiprocessingEngine._run_ready_tasks s)) as H2.
    destruct (MultiprocessingEngine.poll _ _ _ _) as [[s2 rm] | x [s2 rm] | [s2 rm]];
      cbn [state_of fst pass_state] in *;
      try (eapply Htrans; [ exact H1 | exact H2 ]).
    destruct rm as [| n rm];
      [ cbn; eapply Htrans; [ exact H1 | exact H2 ] | ].
    set (s3 := MultiprocessingEngine.set_running _ s2).
    pose proof (Hupd s3) as H4.
    destruct (Engine._update_jobs_check_ready (MultiprocessingEngine.base s3))
      as [has_ready b]. cbn [snd] in H4.
    assert (H5 : R s (MultiprocessingEngine.set_base b s3)).
    { eapply Htrans; [ exact H1 | ]. eapply Htrans; [ exact H2 | ].
      eapply Htrans; [ apply Hrun | exact H4 ]. }
    destruct (MultiprocessingEngine.running (MultiprocessingEngine.set_base b s3));
      destruct has_ready; exact H5. }
  induction fuel as [| fuel IH]; intros s; cbn [MultiprocessingEngine.run_all];
    [ apply Hrefl | ].
  pose proof (Hpass s) as Hstep.
  destruct (MultiprocessingEngine.run_all_pass s) as [[s1 | s1] | x [s1 | s1] | [s1 | s1]];
    cbn [state_of pass_state] in *; try exact Hstep.
  eapply Htrans; [ exact Hstep | ]. eapply Htrans; [ apply Htick | apply IH ].
Qed.

(** The comprehension of [run_all] keeps items of [self.running] only. *)
Lemma keep_unless_in (items : list MultiprocessingEngine.item) (rm : list nat)
  (it : MultiprocessingEngine.item) :
  forall ndx, In it (MultiprocessingEngine.keep_unless ndx items rm) -> In it items.
Proof.
  induction items as [| it0 rest IH]; intros ndx;
    cbn [MultiprocessingEngine.keep_unless]; [ tauto | ].
  destruct (existsb _ rm); cbn; intros Hin.
  - right. now apply (IH (S ndx)).
  - destruct Hin as [-> | Hin]; [ now left | right; now apply (IH (S ndx)) ].
Qed.

Local Abbreviation resources_of :=
  (fun (self : engine) (k tid : string) =>
     Task.resources (MultiprocessingEngine.get_task k tid self)).

Ltac heap_simpl :=
  repeat (progress (cbn -[String.eqb];
                    unfold Job.set_task, Job.set_tasks, Job.set_status;
                    cbn -[String.eqb]; rewrite ?String.eqb_refl)).

(** [process_result] raises what the pool gave when that is not an
    [Exception], and an AttributeError when the task has no resources;
    nothing else. *)
Lemma process_result_raised (k tid : string) (o : outcome value error)
  (self s : engine) (x : exn error) :
  MultiprocessingEngine.process_result k tid o self = Raised x s ->
  (exists b, o = RaisesBaseException b /\ x = Uncaught b) \/
  (x = AttributeError /\ resources_of s k tid = None).
Proof.
  unfold MultiprocessingEngine.process_result,
    MultiprocessingEngine.process_result_rest.
  destruct o as [v | e | b]; cbn [Task.resources Task.set_status Task.set_result];
    [ | | intros [= <- _]; left; now exists b ].
  all: destruct (Task.resources (MultiprocessingEngine.get_task k tid self)) eqn:Hres;
    [ cbn; destruct (resolve_task tid _ _); discriminate | ].
  all: intros [= <- <-]; right; split; [ reflexivity | ].
  all: unfold MultiprocessingEngine.get_task in *; heap_simpl; exact Hres.
Qed.

(** [process_result] does not write the resources of a task, where the
    graph does not. *)
Lemma process_result_resources (k tid : string) (o : outcome value error)
  (self : engine) (k' tid' : string) :
  resolve_task_keeps_resources ->
  resources_of (state_of (MultiprocessingEngine.process_result k tid o self)) k' tid' =
    resources_of self k' tid'.
Proof.
  intros Hframe.
  unfold MultiprocessingEngine.process_result,
    MultiprocessingEngine.process_result_rest.
  destruct o as [v | e | b]; cbn [Task.resources Task.set_status Task.set_result];
    [ | | reflexivity ].
  all: destruct (Task.resources (MultiprocessingEngine.get_task k tid self)) eqn:Hres.
  all: unfold MultiprocessingEngine.get_task in *; heap_simpl.
  all: try match goal with
           | |- context [resolve_task ?t ?g ?h] =>
               pose proof (Hframe t g h tid') as Hkeep;
               destruct (resolve_task t g h) as [g' h']; cbn [snd] in Hkeep
           end.
  all: heap_simpl.
  all: destruct (String.eqb_spec k' k) as [-> | Hk]; heap_simpl; [ | reflexivity ].
  all: try rewrite Hkeep.
  all: destruct (String.eqb_spec tid' tid) as [-> | Htid]; reflexivity.
Qed.

(** The body of the loop of [_run_ready_tasks] leaves the task it is given
    with resources, and writes those of no other task. *)
Lemma _run_ready_task_resources (k tid : string) (self : engine) :
  let self' := MultiprocessingEngine._run_ready_task k tid self in
  resources_of self' k tid <> None /\
  forall k' tid', resources_of self k' tid' <> None ->
                  resources_of self' k' tid' <> None.
Proof.
  cbn zeta. unfold MultiprocessingEngine._run_ready_task.
  cbn [MultiprocessingEngine.ledger MultiprocessingEngine.set_task
       MultiprocessingEngine.set_base].
  destruct (Task.resources (MultiprocessingEngine.get_task k tid self)) eqn:Hres.
  all: destruct (acquire_resources CPU_ALL _ _) as [ok l]; destruct ok.
  all: unfold MultiprocessingEngine.get_task in *; heap_simpl.
  all: split; [ first [ discriminate | rewrite Hres; discriminate ] | ].
  all: intros k' tid'; destruct (String.eqb_spec k' k) as [-> | Hk]; heap_simpl;
    [ | tauto ].
  all: destruct (String.eqb_spec tid' tid) as [-> | Htid]; heap_simpl; [ | tauto ].
  all: intros _; first [ discriminate | rewrite Hres; discriminate ].
Qed.

(** Along [run_all], however it ends, a task that has resources keeps some,
    and an item of [self.running] was there at the start or is that of a
    task with resources. *)
Lemma run_all_resources (fuel : nat) (self : engine) :
  resolve_task_keeps_resources ->
  let s' := state_of (MultiprocessingEngine.run_all fuel self) in
  (forall k tid, resources_of self k tid <> None -> resources_of s' k tid <> None) /\
  (forall it, In it (MultiprocessingEngine.running s') ->
              In it (MultiprocessingEngine.running self) \/
              item_resources s' it <> None).
Proof.
  intros Hframe.
  apply (run_all_keeps
           (fun s s' =>
              (forall k tid, resources_of s k tid <> None ->
                             resources_of s' k tid <> None) /\
              (forall it, In it (MultiprocessingEngine.running s') ->
                          In it (MultiprocessingEngine.running s) \/
                          item_resources s' it <> None))).
  - intros s. split; [ tauto | intros it Hin; now left ].
  - intros a b c [Hab Hrab] [Hbc Hrbc]. split; [ intros k tid Ha; auto | ].
    intros it Hin. destruct (Hrbc it Hin) as [Hb | Hc]; [ | now right ].
    destruct (Hrab it Hb) as [Ha | Hb']; [ now left | right ].
    now apply Hbc.
  - intros k tid s.
    destruct (_run_ready_task_resources k tid s) as [Hset Hkeep].
    split; [ exact Hkeep | ].
    pose proof (_run_ready_task_log k tid s) as Hlog. cbn zeta in Hlog.
    destruct (fst (acquire_resources CPU_ALL _ _)); destruct Hlog as [_ Hrun];
      rewrite Hrun; intros it Hin; [ | now left ].
    apply in_app_or in Hin. destruct Hin as [Hin | [<- | []]]; [ now left | right ].
    exact Hset.
  - intros k tid o s. split.
    + intros k' tid'. now rewrite process_result_resources.
    + intros it Hin. left. now rewrite process_result_running in Hin.
  - intros rm s. split; [ tauto | ].
    intros it Hin. left. exact (keep_unless_in _ _ _ _ Hin).
  - intros s. split; [ | intros it Hin; now left ].
    intros k tid. unfold MultiprocessingEngine.get_task.
    cbn [MultiprocessingEngine.base MultiprocessingEngine.set_base].
    unfold Engine._update_jobs_check_ready.
    destruct (_update_jobs_loop_spec
                (Engine.jobs (MultiprocessingEngine.base s)) false
                (MultiprocessingEngine.base s)) as (Hsame & _ & _).
    destruct (Hsame k) as [_ ->]. tauto.
  - intros s. split; [ tauto | intros it Hin; now left ].
Qed.

(** What leaves the polling loop of [run_all]. *)
Lemma poll_raised (items : list MultiprocessingEngine.item) :
  forall (ndx : nat) (rm rm' : list nat) (self s : engine) (x : exn error),
    (forall it, In it items -> In it (MultiprocessingEngine.running self)) ->
    MultiprocessingEngine.poll ndx items rm self = Raised x (s, rm') ->
    escapes x s.
Proof.
  induction items as [| it rest IH]; intros ndx rm rm' self s x Hincl;
    cbn [MultiprocessingEngine.poll]; [ discriminate | ].
  destruct (async_result_ready _ _ _);
    [ | apply IH; intros it' Hin; apply Hincl; now right ].
  pose proof (process_result_running (MultiprocessingEngine.item_job it)
                (MultiprocessingEngine.item_task it)
                (MultiprocessingEngine.item_result it) self) as Hrun.
  destruct (MultiprocessingEngine.process_result _ _ _ self) as [s1 | x1 s1 | s1]
    eqn:Hproc; cbn [state_of] in Hrun; [ | | discriminate ].
  - apply IH. intros it' Hin. rewrite Hrun. apply Hincl. now right.
  - intros [= <- <- _].
    assert (Hin : In it (MultiprocessingEngine.running s1))
      by (rewrite Hrun; apply Hincl; now left).
    destruct (process_result_raised _ _ _ _ _ _ Hproc) as [(b & Ho & ->) | [-> Hres]];
      cbn [escapes]; exists it; (split; [ exact Hin | assumption ]).
Qed.

(** What leaves [run_all]. *)
Lemma run_all_raised (fuel : nat) :
  forall (self s : engine) (x : exn error),
    MultiprocessingEngine.run_all fuel self = Raised x s -> escapes x s.
Proof.
  induction fuel as [| fuel IH]; intros self s x; [ discriminate | ].
  cbn [MultiprocessingEngine.run_all].
  destruct (MultiprocessingEngine.run_all_pass self)
    as [[s1 | s1] | x1 [s1 | s1] | [s1 | s1]] eqn:Hpass;
    try discriminate; [ apply IH | | ].
  all: intros [= <- <-]; revert Hpass; unfold MultiprocessingEngine.run_all_pass.
  all: destruct (MultiprocessingEngine.poll _ _ _ _)
         as [[s2 rm] | x2 [s2 rm] | [s2 rm]] eqn:Hpoll; try discriminate.
  all: try (destruct rm as [| n rm]; [ discriminate | ];
            destruct (Engine._update_jobs_check_ready _) as [has_ready b];
            cbn [MultiprocessingEngine.running MultiprocessingEngine.set_base
                 MultiprocessingEngine.set_running];
            destruct (MultiprocessingEngine.keep_unless _ _ _); destruct has_ready;
            discriminate).
  intros Heq. inversion Heq; subst.
  exact (poll_raised _ _ _ _ _ _ _ (fun it Hin => Hin) Hpoll).
Qed.

(** An exception fetched from the pool is written on the task, shown to
    [after_task], and [process_result] ends normally. *)
Lemma process_result_captures (k tid : string) (e : error) (res : Resources)
  (self : engine) :
  let tk := MultiprocessingEngine.get_task k tid self in
  let j := Engine.job_objects (MultiprocessingEngine.base self) k in
  Task.resources tk = Some res ->
  exists s',
    MultiprocessingEngine.process_result k tid (RaisesException e) self = Done s' /\
    (snd (resolve_task tid (Job.tasks j)
            (Job.objects (Job.set_task tid (Trace.failed e tk) j))) tid =
       Trace.failed e tk ->
     MultiprocessingEngine.get_task k tid s' = Trace.failed e tk).
Proof.
  intros tk j Hres. unfold MultiprocessingEngine.process_result. fold tk.
  unfold MultiprocessingEngine.process_result_rest.
  cbn [Task.resources Task.set_result Task.set_status]. rewrite Hres.
  cbn [MultiprocessingEngine.base MultiprocessingEngine.emit
       MultiprocessingEngine.set_task MultiprocessingEngine.set_base
       MultiprocessingEngine.set_ledger Engine.emit Engine.set_log
       Engine.set_job Engine.job_objects Engine.jobs Engine.log].
  rewrite String.eqb_refl. fold j.
  cbn [Job.tasks Job.objects Job.set_task].
  destruct (resolve_task tid _ _) as [g h] eqn:Hresolve.
  eexists. split; [ reflexivity | ].
  cbn [snd]. intros Hframe.
  unfold MultiprocessingEngine.get_task. cbn. rewrite String.eqb_refl. cbn.
  exact Hframe.
Qed.


End MultiprocessingFacts.

(** ** The engines at work *)

Lemma returned_Done {S E : Type} (r : result S E) :
  returned r = true -> r = Done (state_of r).
Proof. destruct r; cbn; congruence. Qed.

Section Scenarios.

Local Open Scope string_scope.

Local Abbreviation seq_host := (Demo.host Demo.never).
Local Abbreviation mp_host := (Demo.host Demo.a_first).

Local Abbreviation root := (Demo.new_task "a" "raise").
Local Abbreviation started_root := (Trace.started (H := seq_host) root).
Local Abbreviation before_root := (Engine.BeforeTask (H := seq_host) root).
Local Abbreviation run_root :=
  (Engine.RunnerRun (H := seq_host) started_root (RaisesException "boom")).

(** Fan-out failure on [SequentialEngine]: the root raises, its dependents
    are never started, the job is FAILED with a message naming the root. *)
Example sequential_fan_out_failure :
  exists s,
    SequentialEngine.run (H := seq_host) 10 ["j"]
      (Engine.init (H := seq_host) (fun _ => Demo.fan_out_job)) = Done s /\
    Engine.log s =
      [before_root;
       run_root] /\
    Job.status (Engine.job_objects s "j") = Job.FAILED /\
    Job.error_message (Engine.job_objects s "j") =
      Some "Task a failed. Reason: boom" /\
    Task.status (Job.objects (Engine.job_objects s "j") "b") = Task.WAITING.
Proof.
  eexists. split; [ apply returned_Done; vm_compute; reflexivity | ].
  vm_compute. repeat split.
Qed.

(** Linear chain on [SequentialEngine]: both tasks run, in order. *)
Example sequential_chain :
  exists s,
    SequentialEngine.run (H := seq_host) 10 ["j"]
      (Engine.init (H := seq_host) (fun _ => Demo.chain_job)) = Done s /\
    Job.status (Engine.job_objects s "j") = Job.FINISHED /\
    Task.result (Job.objects (Engine.job_objects s "j") "a") =
      Some (Task.Value "out:a") /\
    Task.result (Job.objects (Engine.job_objects s "j") "b") =
      Some (Task.Value "out:b").
Proof.
  eexists. split; [ apply returned_Done; vm_compute; reflexivity | ].
  vm_compute. repeat split.
Qed.

(** C5 as stated does not hold: in the fan-out failure above the run of the
    root came to an end, by an exception, and [after_task] was not called
    after it. *)
Lemma sequential_failure_skips_after_task :
  ~ Trace.hooks_around_every_run
      (Engine.log
         (state_of (SequentialEngine.run (H := seq_host) 10 ["j"]
                      (Engine.init (H := seq_host) (fun _ => Demo.fan_out_job))))).
Proof.
  intros Hhooks.
  destruct (Hhooks [before_root] started_root
                   (RaisesException "boom") [] eq_refl)
    as [(b & Hb) | (_ & tk1 & post' & Hpost & _)]; discriminate.
Qed.


Lemma hooks_around_tasks_witness :
  (exists pre' tk0,
     [before_root] = (pre' ++ [Engine.BeforeTask tk0])%list /\
     started_root = Trace.started tk0) /\
  ([] : list (Engine.event (H := seq_host))) = [].
Proof.
  apply (proj1 (hooks_around_tasks (H := seq_host)) 10%nat (Demo.fan_out_job, [])
           [before_root] [] started_root (RaisesException "boom")).
  reflexivity.
Defined.

(** Both tasks of the pair in flight: one pass of the run loop on a pool
    that completes nothing. *)
Local Abbreviation in_flight :=
  (state_of (MultiprocessingEngine.run (H := seq_host) 1 ["j"]
               (MultiprocessingEngine.init (H := seq_host) (fun _ => Demo.pair_job) 1000 4))).

(** The graph of the examples does not write the resources of a task. *)
Lemma demo_resolve_task_keeps_resources (ready : nat -> string -> string -> bool) :
  resolve_task_keeps_resources (H := Demo.host ready).
Proof.
  intros tid g h t. cbn. destruct (_ && _ && _); reflexivity.
Qed.

(** The pair whose task [a] is interrupted, on a fresh engine of each
    kind. *)
Local Abbreviation seq_interrupted :=
  (Engine.register_all (H := seq_host) ["j"]
     (Engine.init (H := seq_host) (fun _ => Demo.interrupted_pair_job))).

Local Abbreviation mp_interrupted :=
  (MultiprocessingEngine.init (H := mp_host)
     (fun _ => Demo.interrupted_pair_job) 1000 4).

Local Abbreviation mp_registered :=
  (MultiprocessingEngine.set_base
     (Engine.register_all (H := mp_host) ["j"]
        (MultiprocessingEngine.base mp_interrupted))
     mp_interrupted).


(** C6, where the code departs from it: two independent tasks that both
    return, on a pool where [a] completes first.  After the first pass [a]
    is FINISHED, [b] is still in flight and RUNNING, nothing has failed,
    and the recomputation has made the job FAILED; it becomes FINISHED two
    passes later, when [b] has completed. *)
Theorem job_failed_while_task_in_flight :
  let start := MultiprocessingEngine.init (H := mp_host)
                 (fun _ => Demo.ok_pair_job) 1000 4 in
  let s1 := state_of (MultiprocessingEngine.run 1 ["j"] start) in
  (MultiprocessingEngine.running s1 =
     [MultiprocessingEngine.mkItem (H := mp_host) "j" "b" (Returns "out:b")] /\
   Task.status (MultiprocessingEngine.get_task "j" "a" s1) = Task.FINISHED /\
   Task.status (MultiprocessingEngine.get_task "j" "b" s1) = Task.RUNNING /\
   Job.status (Engine.job_objects (MultiprocessingEngine.base s1) "j") = Job.FAILED) /\
  exists s3,
    MultiprocessingEngine.run 3 ["j"] start = Done s3 /\
    Job.status (Engine.job_objects (MultiprocessingEngine.base s3) "j") = Job.FINISHED.
Proof.
  cbv zeta. split; [ vm_compute; repeat split | ].
  eexists. split; [ apply returned_Done; vm_compute; reflexivity | ].
  vm_compute. reflexivity.
Qed.

(** C9, where the code departs from it: two independent tasks, [a] raises
    and [b] returns, on a pool where [a] completes first.  The failure of
    [a] leaves [b] in flight, and [b] goes on to FINISHED with its result;
    but the job is made FAILED in the very pass that processes [a], while
    [b] is still RUNNING. *)
Theorem failure_leaves_siblings_but_fails_job_early :
  let start := MultiprocessingEngine.init (H := mp_host)
                 (fun _ => Demo.pair_job) 1000 4 in
  let s1 := state_of (MultiprocessingEngine.run 1 ["j"] start) in
  (MultiprocessingEngine.running s1 =
     [MultiprocessingEngine.mkItem (H := mp_host) "j" "b" (Returns "out:b")] /\
   Task.status (MultiprocessingEngine.get_task "j" "a" s1) = Task.FAILED /\
   Task.result (MultiprocessingEngine.get_task "j" "a" s1) = Some (Task.Error "boom") /\
   Task.status (MultiprocessingEngine.get_task "j" "b" s1) = Task.RUNNING /\
   Job.status (Engine.job_objects (MultiprocessingEngine.base s1) "j") = Job.FAILED) /\
  exists s3,
    MultiprocessingEngine.run 3 ["j"] start = Done s3 /\
    MultiprocessingEngine.running s3 = [] /\
    Task.status (MultiprocessingEngine.get_task "j" "b" s3) = Task.FINISHED /\
    Task.result (MultiprocessingEngine.get_task "j" "b" s3) =
      Some (Task.Value "out:b") /\
    Job.status (Engine.job_objects (MultiprocessingEngine.base s3) "j") = Job.FAILED.
Proof.
  cbv zeta. split; [ vm_compute; repeat split | ].
  eexists. split; [ apply returned_Done; vm_compute; reflexivity | ].
  vm_compute. repeat split.
Qed.

End Scenarios.

(** * More of the engines *)

(** ** The admission protocol *)

Section ProtocolFacts.

Variable CPU_ALL : Z.

Local Abbreviation acquire := (acquire_resources CPU_ALL).
Local Abbreviation release := (release_resources CPU_ALL).

Lemma exclusive_held_forget (task : string) (held : admitted) (res : Resources) :
  recorded task held = Some res ->
  exclusive_held CPU_ALL held =
    ((if (cpu res =? CPU_ALL)%Z then 1 else 0) +
     exclusive_held CPU_ALL (forget task held))%nat.
Proof.
  induction held as [| [t r] rest IH]; cbn; [ discriminate | ].
  destruct (String.eqb t task).
  - intros [= ->]. reflexivity.
  - intros Hrec. rewrite (IH Hrec). cbn. lia.
Qed.

Lemma protocol_step_lock (st st' : Ledger * admitted) (c : call) :
  exclusive_held CPU_ALL (snd st) =
    (if multi_cpu_lock (fst st) then 1 else 0)%nat ->
  protocol_step CPU_ALL st c = Some st' ->
  exclusive_held CPU_ALL (snd st') =
    (if multi_cpu_lock (fst st') then 1 else 0)%nat.
Proof.
  destruct st as [self held]. cbn [fst snd]. intros Hinv.
  destruct c as [task res | task]; cbn.
  - destruct (acquire self res) as [ok self'] eqn:Hacq. intros [= <-]. cbn [fst snd].
    destruct ok.
    + assert (Hok : fst (acquire self res) = true) by now rewrite Hacq.
      pose proof (acquire_resources_true CPU_ALL self res Hok) as Hsnd.
      rewrite Hacq in Hsnd. cbn [snd] in Hsnd. subst self'. cbn.
      destruct (Z.eqb_spec (cpu res) CPU_ALL) as [Hc | Hc]; [ | exact Hinv ].
      destruct (multi_cpu_lock self) eqn:Hlock; [ | now rewrite Hinv ].
      assert (Hrej : fst (acquire self res) = false).
      { apply acquire_resources_false. right; left. split; [ exact Hc | now left ]. }
      congruence.
    + assert (Hrej : fst (acquire self res) = false) by now rewrite Hacq.
      apply acquire_resources_rejected in Hrej.
      rewrite Hacq in Hrej. cbn [snd] in Hrej. now subst self'.
  - destruct (recorded task held) as [res |] eqn:Hrec; [ | discriminate ].
    intros [= <-]. cbn [fst snd].
    rewrite (exclusive_held_forget task held res Hrec) in Hinv.
    unfold release_resources, set_available_ram, set_available_cpu,
      set_multi_cpu_lock.
    destruct (cpu res =? CPU_ALL); cbn in *.
    + destruct (multi_cpu_lock self); [ lia | discriminate ].
    + exact Hinv.
Qed.

Lemma run_protocol_lock (calls : list call) :
  forall st st',
    exclusive_held CPU_ALL (snd st) =
      (if multi_cpu_lock (fst st) then 1 else 0)%nat ->
    run_protocol CPU_ALL calls st = Some st' ->
    exclusive_held CPU_ALL (snd st') =
      (if multi_cpu_lock (fst st') then 1 else 0)%nat.
Proof.
  induction calls as [| c rest IH]; intros st st' Hinv; cbn.
  - now intros [= <-].
  - destruct (protocol_step CPU_ALL st c) as [st1 |] eqn:Hstep; [ | discriminate ].
    apply IH. exact (protocol_step_lock st st1 c Hinv Hstep).
Qed.

(** X1: exclusive tasks exclude each other.  Along every sequence of
    acquisitions and matching releases on a fresh ledger, the number of
    admitted CPU_ALL tasks is one when the lock is set and none when it is
    clear: two of them are never admitted together. *)
Theorem exclusive_tasks_exclude_each_other (ram ncpu : Z) (calls : list call)
  (self : Ledger) (held : admitted) :
  run_protocol CPU_ALL calls (init_ledger ram ncpu, []) = Some (self, held) ->
  exclusive_held CPU_ALL held = (if multi_cpu_lock self then 1 else 0)%nat.
Proof.
  intros Hrun.
  exact (run_protocol_lock calls (init_ledger ram ncpu, []) (self, held)
           eq_refl Hrun).
Qed.

(** X2: a request that asks for more RAM than the machine has, or for more
    cores, is rejected in every state the protocol can reach: its task is
    never admitted. *)
Theorem oversized_request_never_admitted (ram ncpu : Z) (calls : list call)
  (self : Ledger) (held : admitted) (res : Resources) :
  0 <= ram -> 0 <= ncpu -> Forall (wf_call CPU_ALL) calls ->
  run_protocol CPU_ALL calls (init_ledger ram ncpu, []) = Some (self, held) ->
  mem_mb res > ram \/ cpu res > ncpu ->
  fst (acquire self res) = false.
Proof.
  intros Hram Hcpu Hwf Hrun Hbig.
  assert (Hinit : conserved CPU_ALL (init_ledger ram ncpu, [])).
  { unfold conserved; cbn. repeat split; try lia. constructor. }
  destruct (run_protocol_conserved CPU_ALL calls _ _ Hwf Hinit Hrun)
    as ((Hc & Hr & Hc0 & Hr0 & Hheld) & Htc & Htr).
  cbn [fst snd init_ledger total_cpu total_ram] in *.
  destruct (held_nonneg CPU_ALL _ Hheld) as [Hn1 Hn2].
  apply acquire_resources_false.
  destruct Hbig as [Hbig | Hbig]; [ left; lia | right; right; lia ].
Qed.

Lemma no_cores_held (held : admitted) :
  Forall (fun p => wf_request CPU_ALL (snd p)) held ->
  exclusive_held CPU_ALL held = O -> held_cpu CPU_ALL held = 0 ->
  Forall (fun p => cpu (snd p) = 0) held.
Proof.
  induction 1 as [| [t r] rest [Hm Hc] Hrest IH]; cbn; [ constructor | ].
  destruct (held_nonneg CPU_ALL rest Hrest) as [Hn _].
  destruct (Z.eqb_spec (cpu r) CPU_ALL) as [Heq | Hne]; [ discriminate | ].
  intros Hex Hsum. cbn in Hex, Hc, Hm.
  constructor; [ cbn; lia | apply IH; [ exact Hex | lia ] ].
Qed.

(** X3: the exclusivity that admission does enforce.  In a state the
    protocol can reach, a CPU_ALL request is only admitted when no admitted
    task holds a core: none of them is exclusive and each asked for zero
    cores. *)
Theorem exclusive_admitted_on_idle_cores (ram ncpu : Z) (calls : list call)
  (self : Ledger) (held : admitted) (res : Resources) :
  0 <= ram -> 0 <= ncpu -> Forall (wf_call CPU_ALL) calls ->
  run_protocol CPU_ALL calls (init_ledger ram ncpu, []) = Some (self, held) ->
  cpu res = CPU_ALL -> fst (acquire self res) = true ->
  exclusive_held CPU_ALL held = O /\
  Forall (fun p => cpu (snd p) = 0) held.
Proof.
  intros Hram Hcpu Hwf Hrun Hall Hok.
  assert (Hinit : conserved CPU_ALL (init_ledger ram ncpu, [])).
  { unfold conserved; cbn. repeat split; try lia. constructor. }
  destruct (run_protocol_conserved CPU_ALL calls _ _ Hwf Hinit Hrun)
    as ((Hc & _ & _ & _ & Hheld) & _ & _).
  cbn [fst snd] in *.
  pose proof (run_protocol_lock calls (init_ledger ram ncpu, []) (self, held)
                eq_refl Hrun) as Hlock.
  cbn [fst snd] in Hlock.
  assert (Hidle : multi_cpu_lock self = false /\ available_cpu self = total_cpu self).
  { destruct (multi_cpu_lock self) eqn:Hl.
    - assert (Hrej : fst (acquire self res) = false).
      { apply acquire_resources_false. right; left. split; [ exact Hall | now left ]. }
      congruence.
    - split; [ reflexivity | ].
      destruct (Z.eq_dec (available_cpu self) (total_cpu self)) as [Heq | Hne];
        [ exact Heq | ].
      assert (Hrej : fst (acquire self res) = false).
      { apply acquire_resources_false. right; left. split; [ exact Hall | now right ]. }
      congruence. }
  destruct Hidle as [Hl Ha]. rewrite Hl in Hlock.
  split; [ exact Hlock | ].
  apply no_cores_held; [ exact Hheld | exact Hlock | lia ].
Qed.

(** X4: the order of two admissions does not matter when neither request
    is exclusive.  If a first request is admitted and then a second, the
    second is admitted first as well, then the first, and the ledger is the
    same. *)
Theorem admission_order_irrelevant (self : Ledger) (r1 r2 : Resources) :
  cpu r1 <> CPU_ALL -> cpu r2 <> CPU_ALL -> 0 <= mem_mb r1 -> 0 <= cpu r1 ->
  fst (acquire self r1) = true ->
  fst (acquire (snd (acquire self r1)) r2) = true ->
  fst (acquire self r2) = true /\
  fst (acquire (snd (acquire self r2)) r1) = true /\
  snd (acquire (snd (acquire self r2)) r1) =
    snd (acquire (snd (acquire self r1)) r2).
Proof.
  intros Hc1 Hc2 Hm1 Hp1 Hok1 Hok2.
  destruct (acquire_resources_fields CPU_ALL self r1 Hok1)
    as (Hm & Hc & _ & _ & Har & Hac).
  destruct (acquire_resources_fields CPU_ALL _ r2 Hok2)
    as (Hm' & Hc' & _ & _ & _ & _).
  apply Z.eqb_neq in Hc1 as Hb1. apply Z.eqb_neq in Hc2 as Hb2.
  rewrite Hb1 in Hac.
  assert (Hok2' : fst (acquire self r2) = true).
  { destruct (fst (acquire self r2)) eqn:Hacq; [ reflexivity | ].
    apply acquire_resources_false in Hacq.
    destruct Hacq as [Hrej | [[Hrej _] | Hrej]]; [ lia | contradiction | lia ]. }
  destruct (acquire_resources_fields CPU_ALL self r2 Hok2')
    as (_ & _ & _ & _ & Har2 & Hac2).
  rewrite Hb2 in Hac2.
  assert (Hok1' : fst (acquire (snd (acquire self r2)) r1) = true).
  { destruct (fst (acquire (snd (acquire self r2)) r1)) eqn:Hacq; [ reflexivity | ].
    apply acquire_resources_false in Hacq.
    destruct Hacq as [Hrej | [[Hrej _] | Hrej]]; [ lia | contradiction | lia ]. }
  split; [ exact Hok2' | split; [ exact Hok1' | ] ].
  rewrite (acquire_resources_true CPU_ALL _ r1 Hok1').
  rewrite (acquire_resources_true CPU_ALL _ r2 Hok2).
  rewrite (acquire_resources_true CPU_ALL self r1 Hok1).
  rewrite (acquire_resources_true CPU_ALL self r2 Hok2').
  cbn. rewrite Hb1, Hb2. f_equal; lia.
Qed.

End ProtocolFacts.

Lemma exclusive_tasks_exclude_each_other_witness :
  exclusive_held (-1)
    [("y"%string, mkResources 100 1); ("x"%string, mkResources 100 (-1))] = 1%nat.
Proof.
  exact (exclusive_tasks_exclude_each_other (-1) 1000 4 Demo.exclusive_then_single
           _ _ eq_refl).
Defined.

Lemma oversized_request_never_admitted_witness :
  fst (acquire_resources (-1)
         {| total_ram := 1000; total_cpu := 4;
            available_ram := 800; available_cpu := 3;
            multi_cpu_lock := false |}
         (mkResources 2000 1)) = false.
Proof.
  assert (Hwf : Forall (wf_call (-1)) Demo.busy_calls).
  { unfold Demo.busy_calls.
    repeat (apply Forall_cons;
            [ first [ exact I | unfold wf_call, wf_request; cbn; lia ] | ]).
    apply Forall_nil. }
  assert (Hram : 0 <= 1000) by lia.
  assert (Hcpu : 0 <= 4) by lia.
  assert (Hbig : mem_mb (mkResources 2000 1) > 1000 \/ cpu (mkResources 2000 1) > 4)
    by (left; cbn; lia).
  exact (oversized_request_never_admitted (-1) 1000 4 Demo.busy_calls _ _
           (mkResources 2000 1) Hram Hcpu Hwf eq_refl Hbig).
Defined.

Lemma exclusive_admitted_on_idle_cores_witness :
  exclusive_held (-1) [("z"%string, mkResources 50 0)] = O /\
  Forall (fun p => cpu (snd p) = 0) [("z"%string, mkResources 50 0)].
Proof.
  assert (Hwf : Forall (wf_call (-1)) Demo.negligible_calls).
  { unfold Demo.negligible_calls.
    apply Forall_cons; [ unfold wf_call, wf_request; cbn; lia | apply Forall_nil ]. }
  assert (Hram : 0 <= 1000) by lia.
  assert (Hcpu : 0 <= 4) by lia.
  exact (exclusive_admitted_on_idle_cores (-1) 1000 4 Demo.negligible_calls _ _
           (mkResources 100 (-1)) Hram Hcpu Hwf eq_refl eq_refl eq_refl).
Defined.

Lemma admission_order_irrelevant_witness :
  fst (acquire_resources (-1) (init_ledger 1000 4) (mkResources 200 1)) = true /\
  fst (acquire_resources (-1)
         (snd (acquire_resources (-1) (init_ledger 1000 4) (mkResources 200 1)))
         (mkResources 300 2)) = true /\
  snd (acquire_resources (-1)
         (snd (acquire_resources (-1) (init_ledger 1000 4) (mkResources 200 1)))
         (mkResources 300 2)) =
  snd (acquire_resources (-1)
         (snd (acquire_resources (-1) (init_ledger 1000 4) (mkResources 300 2)))
         (mkResources 200 1)).
Proof.
  apply (admission_order_irrelevant (-1) (init_ledger 1000 4)
           (mkResources 300 2) (mkResources 200 1));
    first [ reflexivity | cbn; lia ].
Defined.

(** ** The status recomputation and the sequential loop *)

Lemma existsb_same {A : Type} (f g : A -> bool) (l : list A) :
  (forall a, f a = g a) -> existsb f l = existsb g l.
Proof.
  intros Hfg. induction l as [| a l IH]; cbn; [ reflexivity | ].
  now rewrite Hfg, IH.
Qed.

Section EngineMore.

Context {H : Host}.

Local Abbreviation task := (@Engine.task H).
Local Abbreviation job := (@Engine.job H).
Local Abbreviation event := (@Engine.event H).

(** Everything the loop of [_update_jobs_check_ready] does: the flag it
    returns, and the one field it writes. *)
Lemma _update_jobs_loop_exact (keys : list string) :
  forall (has_ready : bool) (self : Engine.t),
    let r := Engine._update_jobs_loop keys has_ready self in
    fst r = has_ready || existsb (fun k => has_ready_task (Engine.job_objects self k)) keys /\
    Engine.jobs (snd r) = Engine.jobs self /\
    Engine.log (snd r) = Engine.log self /\
    forall k,
      Engine.job_objects (snd r) k =
        if existsb (String.eqb k) keys &&
           negb (has_ready_task (Engine.job_objects self k))
        then Job.set_status
               (if Engine.any_unfinished (Engine.job_objects self k)
                then Job.FAILED else Job.FINISHED)
               (Engine.job_objects self k)
        else Engine.job_objects self k.
Proof.
  induction keys as [| k0 rest IH]; intros has_ready self; cbn zeta.
  - cbn. rewrite orb_false_r. repeat split.
  - cbn [Engine._update_jobs_loop existsb]. unfold has_ready_task at 1.
    destruct (get_ready_tasks (Job.tasks (Engine.job_objects self k0))
                              (Job.objects (Engine.job_objects self k0)))
      as [| tid ready] eqn:Hready.
    + set (j' := Job.set_status _ (Engine.job_objects self k0)).
      destruct (IH has_ready (Engine.set_job k0 j' self)) as (Hflag & Hjobs & Hlog & Hobj).
      assert (Hrdy : forall k,
                 has_ready_task (Engine.job_objects (Engine.set_job k0 j' self) k) =
                 has_ready_task (Engine.job_objects self k)).
      { intros k. cbn. destruct (String.eqb_spec k k0) as [-> | _]; reflexivity. }
      assert (Hunf : forall k,
                 Engine.any_unfinished (Engine.job_objects (Engine.set_job k0 j' self) k) =
                 Engine.any_unfinished (Engine.job_objects self k)).
      { intros k. cbn. destruct (String.eqb_spec k k0) as [-> | _]; reflexivity. }
      split; [ | split; [ exact Hjobs | split; [ exact Hlog | ] ] ].
      * rewrite Hflag. cbn [orb]. f_equal. apply existsb_same. intros k. apply Hrdy.
      * intros k. rewrite Hobj, Hrdy, Hunf. cbn [Engine.job_objects Engine.set_job].
        destruct (String.eqb_spec k k0) as [-> | Hne]; cbn [orb].
        -- assert (Hno : has_ready_task (Engine.job_objects self k0) = false)
             by (unfold has_ready_task; now rewrite Hready).
           rewrite Hno. cbn [negb andb].
           destruct (existsb (String.eqb k0) rest); cbn [andb];
             [ | reflexivity ].
           subst j'. unfold Engine.any_unfinished. cbn.
           now destruct (existsb _ (iter_tasks _)).
        -- reflexivity.
    + destruct (IH true self) as (Hflag & Hjobs & Hlog & Hobj).
      split; [ | split; [ exact Hjobs | split; [ exact Hlog | ] ] ].
      * rewrite Hflag. cbn. now rewrite orb_true_r.
      * intros k. rewrite Hobj.
        destruct (String.eqb_spec k k0) as [-> | Hne]; cbn [orb]; [ | reflexivity ].
        assert (Hyes : has_ready_task (Engine.job_objects self k0) = true)
          by (unfold has_ready_task; now rewrite Hready).
        rewrite Hyes. cbn [negb]. now rewrite !andb_false_r.
Qed.

Lemma _update_jobs_check_ready_flag (self : Engine.t) :
  fst (Engine._update_jobs_check_ready self) =
    existsb (fun k => has_ready_task (Engine.job_objects self k)) (Engine.jobs self) /\
  forall k,
    Job.status (Engine.job_objects (snd (Engine._update_jobs_check_ready self)) k) =
      Job.status (Engine.job_objects self k) \/
    Job.status (Engine.job_objects (snd (Engine._update_jobs_check_ready self)) k) =
      Job.FINISHED \/
    Job.status (Engine.job_objects (snd (Engine._update_jobs_check_ready self)) k) =
      Job.FAILED.
Proof.
  unfold Engine._update_jobs_check_ready.
  destruct (_update_jobs_loop_exact (Engine.jobs self) false self)
    as (Hflag & _ & _ & Hobj).
  cbn zeta in *. split; [ exact Hflag | ].
  intros k. rewrite Hobj.
  destruct (existsb (String.eqb k) (Engine.jobs self) && _); [ | now left ].
  right. cbn. destruct (Engine.any_unfinished _); [ now right | now left ].
Qed.

(** X5: [_update_jobs_check_ready] returns True exactly when a registered
    job has a ready task, and writes nothing but the status of the
    registered jobs that have none: FAILED when one of their tasks is not
    FINISHED, else FINISHED.  The registry, the other jobs, and the graph,
    the tasks and the other attributes of every job are as before. *)
Theorem _update_jobs_check_ready_exact (self : Engine.t) :
  let r := Engine._update_jobs_check_ready self in
  fst r = existsb (fun k => has_ready_task (Engine.job_objects self k))
                  (Engine.jobs self) /\
  Engine.jobs (snd r) = Engine.jobs self /\
  forall k,
    Engine.job_objects (snd r) k =
      if existsb (String.eqb k) (Engine.jobs self) &&
         negb (has_ready_task (Engine.job_objects self k))
      then Job.set_status
             (if Engine.any_unfinished (Engine.job_objects self k)
              then Job.FAILED else Job.FINISHED)
             (Engine.job_objects self k)
      else Engine.job_objects self k.
Proof.
  unfold Engine._update_jobs_check_ready.
  destruct (_update_jobs_loop_exact (Engine.jobs self) false self)
    as (Hflag & Hjobs & _ & Hobj).
  cbn zeta. split; [ exact Hflag | split; [ exact Hjobs | exact Hobj ] ].
Qed.

Lemma job_status_eqb_eq (a b : Job.status_t) :
  Job.status_eqb a b = true <-> a = b.
Proof. destruct a, b; cbn; split; congruence. Qed.

Lemma put_other (k k0 : string) (st : job * list event) (self : Engine.t) :
  k <> k0 ->
  Engine.job_objects (SequentialEngine.put k0 st self) k = Engine.job_objects self k.
Proof.
  intros Hne. cbn. destruct (String.eqb_spec k k0); [ contradiction | reflexivity ].
Qed.

Lemma put_same (k : string) (st : job * list event) (self : Engine.t) :
  Engine.job_objects (SequentialEngine.put k st self) k = fst st.
Proof. cbn. now rewrite String.eqb_refl. Qed.

(** [_run_job] writes on the tasks and the graph of the job, not on its
    status or message. *)
Lemma _run_job_for_status (ready : list string) :
  forall st : job * list event,
    Job.status (fst (state_of (SequentialEngine._run_job_for ready st))) =
      Job.status (fst st) /\
    Job.error_message (fst (state_of (SequentialEngine._run_job_for ready st))) =
      Job.error_message (fst st).
Proof.
  induction ready as [| tid rest IH]; intros [j log]; [ split; reflexivity | ].
  cbn [SequentialEngine._run_job_for]. rewrite run_task_eq. cbn zeta.
  destruct (run _ _) as [v | e | b]; [ | split; reflexivity | split; reflexivity ].
  cbn [Task.status Trace.finished Task.set_status Task.status_eqb].
  destruct (resolve_task tid _ _) as [g h].
  match goal with
  | |- context [SequentialEngine._run_job_for rest ?st'] =>
      destruct (IH st') as [Hs Hm]; rewrite Hs, Hm
  end.
  split; reflexivity.
Qed.

Lemma _run_job_status (fuel : nat) :
  forall st : job * list event,
    Job.status (fst (state_of (SequentialEngine._run_job fuel st))) =
      Job.status (fst st) /\
    Job.error_message (fst (state_of (SequentialEngine._run_job fuel st))) =
      Job.error_message (fst st).
Proof.
  induction fuel as [| fuel IH]; intros st; cbn [SequentialEngine._run_job].
  - destruct (get_ready_tasks _ _); split; reflexivity.
  - destruct (get_ready_tasks _ _) as [| tid ready]; [ split; reflexivity | ].
    destruct (_run_job_for_status (tid :: ready) st) as [Hs Hm].
    destruct (SequentialEngine._run_job_for (tid :: ready) st) as [s1 | x s1 | s1];
      cbn [and_then state_of] in *; [ | split; assumption | split; assumption ].
    destruct (IH s1) as [Hs1 Hm1]. rewrite Hs1, Hm1. split; assumption.
Qed.

Lemma successes_no_raise (ext : list event) :
  Trace.successes ext -> existsb run_raised ext = false.
Proof. induction 1 as [| tk v rest _ IH]; cbn; [ reflexivity | exact IH ]. Qed.


Lemma run_all_body_not_queued (fuel : nat) (j : job) (log : list event)
  (st : job * list event) :
  SequentialEngine.run_all_body fuel j log = Done st ->
  Job.status (fst st) <> Job.QUEUED.
Proof.
  unfold SequentialEngine.run_all_body.
  destruct (SequentialEngine._run_job fuel _) as [[j' l'] | [msg | | b] [j' l'] | s1];
    try discriminate; intros [= <-]; cbn; discriminate.
Qed.

Lemma run_all_loop_jobs (fuel : nat) (keys : list string) :
  forall self : Engine.t,
    Engine.jobs (state_of (SequentialEngine.run_all_loop fuel keys self)) =
    Engine.jobs self.
Proof.
  induction keys as [| k0 rest IH]; intros self;
    cbn [SequentialEngine.run_all_loop]; [ reflexivity | ].
  destruct (negb _); [ apply IH | ].
  destruct (SequentialEngine.run_all_body fuel _ _) as [st | x st | st];
    [ now rewrite IH | reflexivity | reflexivity ].
Qed.

(** A job that is not QUEUED is passed over. *)
Lemma run_all_loop_skips (fuel : nat) (keys : list string) (k : string) :
  forall self : Engine.t,
    Job.status (Engine.job_objects self k) <> Job.QUEUED ->
    Engine.job_objects (state_of (SequentialEngine.run_all_loop fuel keys self)) k =
    Engine.job_objects self k.
Proof.
  induction keys as [| k0 rest IH]; intros self Hk;
    cbn [SequentialEngine.run_all_loop]; [ reflexivity | ].
  destruct (Job.status_eqb (Job.status (Engine.job_objects self k0)) Job.QUEUED)
    eqn:Hq; cbn [negb]; [ | now apply IH ].
  apply job_status_eqb_eq in Hq.
  assert (Hne : k <> k0) by (intros ->; contradiction).
  destruct (SequentialEngine.run_all_body fuel _ _) as [st | x st | st];
    cbn [state_of]; try now apply put_other.
  rewrite IH; [ now apply put_other | now rewrite put_other ].
Qed.

Lemma run_all_loop_done (fuel : nat) (keys : list string) :
  forall self s : Engine.t,
    SequentialEngine.run_all_loop fuel keys self = Done s ->
    forall k, In k keys -> Job.status (Engine.job_objects s k) <> Job.QUEUED.
Proof.
  induction keys as [| k0 rest IH]; intros self s Hdone k Hin; [ contradiction | ].
  cbn [SequentialEngine.run_all_loop] in Hdone.
  destruct (Job.status_eqb (Job.status (Engine.job_objects self k0)) Job.QUEUED)
    eqn:Hq; cbn [negb] in Hdone.
  - destruct (SequentialEngine.run_all_body fuel _ _) as [st | x st | st] eqn:Hbody;
      try discriminate.
    destruct (in_dec string_dec k rest) as [Hrest | Hrest];
      [ exact (IH _ _ Hdone k Hrest) | ].
    destruct Hin as [<- | Hin]; [ | contradiction ].
    pose proof (run_all_loop_skips fuel rest k0 (SequentialEngine.put k0 st self))
      as Hskip.
    rewrite Hdone in Hskip. cbn [state_of] in Hskip.
    rewrite put_same in Hskip.
    rewrite Hskip; exact (run_all_body_not_queued _ _ _ _ Hbody).
  - destruct (in_dec string_dec k rest) as [Hrest | Hrest];
      [ exact (IH _ _ Hdone k Hrest) | ].
    destruct Hin as [<- | Hin]; [ | contradiction ].
    assert (Hk0 : Job.status (Engine.job_objects self k0) <> Job.QUEUED).
    { intros Heq. apply job_status_eqb_eq in Heq. congruence. }
    pose proof (run_all_loop_skips fuel rest k0 self Hk0) as Hskip.
    rewrite Hdone in Hskip. cbn [state_of] in Hskip. now rewrite Hskip.
Qed.

Lemma run_all_loop_nothing_queued (fuel : nat) (keys : list string)
  (self : Engine.t) :
  (forall k, In k keys -> Job.status (Engine.job_objects self k) <> Job.QUEUED) ->
  SequentialEngine.run_all_loop fuel keys self = Done self.
Proof.
  induction keys as [| k0 rest IH]; intros Hall;
    cbn [SequentialEngine.run_all_loop]; [ reflexivity | ].
  destruct (Job.status_eqb (Job.status (Engine.job_objects self k0)) Job.QUEUED)
    eqn:Hq; cbn [negb].
  - apply job_status_eqb_eq in Hq. elim (Hall k0 (or_introl eq_refl) Hq).
  - apply IH. intros k Hin. apply Hall. now right.
Qed.

(** X7: [SequentialEngine.run_all] can be called again.  It passes over
    the jobs that are not QUEUED, leaving them as they are; when it
    returns, no registered job is QUEUED any more, so that a second call
    runs nothing and changes nothing. *)
Theorem sequential_run_all_reentrant (fuel : nat) (self s : Engine.t) :
  SequentialEngine.run_all fuel self = Done s ->
  Engine.jobs s = Engine.jobs self /\
  (forall k, In k (Engine.jobs s) ->
             Job.status (Engine.job_objects s k) <> Job.QUEUED) /\
  (forall k, Job.status (Engine.job_objects self k) <> Job.QUEUED ->
             Engine.job_objects s k = Engine.job_objects self k) /\
  forall fuel', SequentialEngine.run_all fuel' s = Done s.
Proof.
  unfold SequentialEngine.run_all. intros Hdone.
  pose proof (run_all_loop_jobs fuel (Engine.jobs self) self) as Hjobs.
  rewrite Hdone in Hjobs. cbn [state_of] in Hjobs.
  assert (Hnot : forall k, In k (Engine.jobs s) ->
                   Job.status (Engine.job_objects s k) <> Job.QUEUED).
  { rewrite Hjobs. exact (run_all_loop_done fuel _ _ _ Hdone). }
  split; [ exact Hjobs | split; [ exact Hnot | split ] ].
  - intros k Hk.
    pose proof (run_all_loop_skips fuel (Engine.jobs self) k self Hk) as Hskip.
    now rewrite Hdone in Hskip.
  - intros fuel'. now apply run_all_loop_nothing_queued.
Qed.

End EngineMore.

(** ** The multiprocessing loop *)

Section MultiprocessingMore.

Context {H : Host}.

Local Abbreviation task := (@Engine.task H).
Local Abbreviation job := (@Engine.job H).
Local Abbreviation event := (@Engine.event H).
Local Abbreviation engine := (@MultiprocessingEngine.t H).

Ltac heap_simpl :=
  repeat (progress (cbn -[String.eqb];
                    unfold Job.set_task, Job.set_tasks, Job.set_status;
                    cbn -[String.eqb]; rewrite ?String.eqb_refl)).

Lemma process_result_clock (k tid : string) (o : outcome value error)
  (self : engine) :
  MultiprocessingEngine.clock
    (state_of (MultiprocessingEngine.process_result k tid o self)) =
  MultiprocessingEngine.clock self.
Proof.
  unfold MultiprocessingEngine.process_result,
    MultiprocessingEngine.process_result_rest.
  destruct o as [v | e | b]; cbn [Task.resources Task.set_status Task.set_result];
    try reflexivity.
  all: destruct (Task.resources _); [ | reflexivity ].
  all: cbn; destruct (resolve_task tid _ _); reflexivity.
Qed.

(** The indices that [poll] adds to [to_remove] are those of the items it
    goes through. *)
Lemma poll_indices (items : list MultiprocessingEngine.item) :
  forall (ndx : nat) (rm : list nat) (self s' : engine) (rm' : list nat),
    MultiprocessingEngine.poll ndx items rm self = Done (s', rm') ->
    exists extra, rm' = rm ++ extra /\ forall i, In i extra -> (ndx <= i)%nat.
Proof.
  induction items as [| it rest IH]; intros ndx rm self s' rm';
    cbn [MultiprocessingEngine.poll].
  - intros [= _ <-]. exists []. split; [ now rewrite app_nil_r | contradiction ].
  - destruct (async_result_ready _ _ _).
    + destruct (MultiprocessingEngine.process_result _ _ _ self)
        as [s1 | x s1 | s1]; try discriminate.
      intros Hpoll. destruct (IH _ _ _ _ _ Hpoll) as (extra & -> & Hge).
      exists (ndx :: extra). split; [ now rewrite <- app_assoc | ].
      intros i [<- | Hin]; [ lia | ]. specialize (Hge i Hin). lia.
    + intros Hpoll. destruct (IH _ _ _ _ _ Hpoll) as (extra & -> & Hge).
      exists extra. split; [ reflexivity | ].
      intros i Hin. specialize (Hge i Hin). lia.
Qed.

Lemma poll_keep (items : list MultiprocessingEngine.item) :
  forall (ndx : nat) (rm : list nat) (self s' : engine) (rm' : list nat),
    (forall i, In i rm -> (i < ndx)%nat) ->
    MultiprocessingEngine.poll ndx items rm self = Done (s', rm') ->
    MultiprocessingEngine.keep_unless ndx items rm' =
      filter (fun it => negb (item_ready (MultiprocessingEngine.clock self) it)) items /\
    List.length rm' =
      (List.length rm +
       List.length (filter (item_ready (MultiprocessingEngine.clock self)) items))%nat.
Proof.
  induction items as [| it rest IH]; intros ndx rm self s' rm' Hlt;
    cbn [MultiprocessingEngine.poll MultiprocessingEngine.keep_unless filter].
  - intros [= _ <-]. split; [ reflexivity | cbn; lia ].
  - assert (Hitem : item_ready (MultiprocessingEngine.clock self) it =
                    async_result_ready (MultiprocessingEngine.clock self)
                      (MultiprocessingEngine.item_job it)
                      (MultiprocessingEngine.item_task it)) by reflexivity.
    rewrite !Hitem.
    destruct (async_result_ready _ _ _) eqn:Hready; cbn [negb].
    + pose proof (process_result_clock (MultiprocessingEngine.item_job it)
                    (MultiprocessingEngine.item_task it)
                    (MultiprocessingEngine.item_result it) self) as Hclock.
      destruct (MultiprocessingEngine.process_result _ _ _ self)
        as [s1 | x s1 | s1]; try discriminate.
      cbn [state_of] in Hclock. intros Hpoll.
      assert (Hlt' : forall i, In i (rm ++ [ndx]) -> (i < S ndx)%nat).
      { intros i Hin. apply in_app_or in Hin.
        destruct Hin as [Hin | [<- | []]]; [ specialize (Hlt i Hin) | ]; lia. }
      destruct (IH _ _ _ _ _ Hlt' Hpoll) as [Hkeep Hlen].
      destruct (poll_indices _ _ _ _ _ _ Hpoll) as (extra & -> & _).
      rewrite Hclock in Hkeep, Hlen.
      assert (Hin : existsb (Nat.eqb ndx) ((rm ++ [ndx]) ++ extra) = true).
      { apply existsb_exists. exists ndx.
        split; [ | apply Nat.eqb_refl ].
        apply in_or_app. left. apply in_or_app. right. now left. }
      rewrite Hin. split; [ exact Hkeep | ].
      rewrite Hlen, List.length_app. cbn. lia.
    + intros Hpoll.
      assert (Hlt' : forall i, In i rm -> (i < S ndx)%nat).
      { intros i Hin. specialize (Hlt i Hin). lia. }
      destruct (IH _ _ _ _ _ Hlt' Hpoll) as [Hkeep Hlen].
      destruct (poll_indices _ _ _ _ _ _ Hpoll) as (extra & -> & Hge).
      assert (Hout : existsb (Nat.eqb ndx) (rm ++ extra) = false).
      { destruct (existsb (Nat.eqb ndx) (rm ++ extra)) eqn:Hex; [ | reflexivity ].
        apply existsb_exists in Hex. destruct Hex as (i & Hin & Heq).
        apply Nat.eqb_eq in Heq. subst i. apply in_app_or in Hin.
        destruct Hin as [Hin | Hin];
          [ specialize (Hlt ndx Hin) | specialize (Hge ndx Hin) ]; lia. }
      rewrite Hout. split; [ now rewrite Hkeep | exact Hlen ].
Qed.

(** X8: what a pass of [run_all] takes out of [self.running].  When the
    polling loop ends normally, the list comprehension keeps, in their
    order, exactly the items whose result was not ready, and one index was
    recorded for each item that was. *)
Theorem completed_items_removed (self s' : engine) (to_remove : list nat) :
  MultiprocessingEngine.poll 0 (MultiprocessingEngine.running self) [] self =
    Done (s', to_remove) ->
  MultiprocessingEngine.keep_unless 0 (MultiprocessingEngine.running self) to_remove =
    filter (fun it => negb (item_ready (MultiprocessingEngine.clock self) it))
           (MultiprocessingEngine.running self) /\
  List.length to_remove =
    List.length (filter (item_ready (MultiprocessingEngine.clock self))
                   (MultiprocessingEngine.running self)).
Proof.
  intros Hpoll.
  destruct (poll_keep _ 0%nat [] self s' to_remove (fun i (Hin : In i []) => match Hin with end) Hpoll)
    as [Hkeep Hlen].
  split; [ exact Hkeep | exact Hlen ].
Qed.

(** X9: a task that fails admission is left for a later pass.  Its
    resources are filled in from its runner if it had none, and that is
    all: its status, the ledger, [self.running], the hooks' log and the
    graph of its job are as before. *)
Theorem rejected_task_left_alone (k tid : string) (self : engine) :
  let tk0 := MultiprocessingEngine.get_task k tid self in
  let res := match Task.resources tk0 with
             | Some res => res
             | None => get_requirements (get_runner tk0) tk0
             end in
  let self' := MultiprocessingEngine._run_ready_task k tid self in
  fst (acquire_resources CPU_ALL (MultiprocessingEngine.ledger self) res) = false ->
  MultiprocessingEngine.ledger self' = MultiprocessingEngine.ledger self /\
  MultiprocessingEngine.running self' = MultiprocessingEngine.running self /\
  Engine.log (MultiprocessingEngine.base self') =
    Engine.log (MultiprocessingEngine.base self) /\
  Task.status (MultiprocessingEngine.get_task k tid self') = Task.status tk0 /\
  Task.resources (MultiprocessingEngine.get_task k tid self') = Some res /\
  Task.result (MultiprocessingEngine.get_task k tid self') = Task.result tk0 /\
  Job.tasks (Engine.job_objects (MultiprocessingEngine.base self') k) =
    Job.tasks (Engine.job_objects (MultiprocessingEngine.base self) k) /\
  Job.status (Engine.job_objects (MultiprocessingEngine.base self') k) =
    Job.status (Engine.job_objects (MultiprocessingEngine.base self) k).
Proof.
  intros tk0 res self' Hrej. subst self'.
  unfold MultiprocessingEngine._run_ready_task. fold tk0. fold res.
  cbn [MultiprocessingEngine.ledger MultiprocessingEngine.set_task
       MultiprocessingEngine.set_base].
  pose proof (acquire_resources_rejected CPU_ALL _ _ Hrej) as Hsame.
  destruct (acquire_resources CPU_ALL (MultiprocessingEngine.ledger self) res)
    as [ok l]. cbn [fst snd] in Hrej, Hsame. subst ok l.
  cbn [negb]. unfold MultiprocessingEngine.get_task. cbn.
  rewrite !String.eqb_refl. cbn.
  subst res. destruct (Task.resources tk0) eqn:Hres; cbn;
    rewrite ?String.eqb_refl; cbn; rewrite ?Hres; repeat split; reflexivity.
Qed.

(** X10: admission and completion compose to nothing on the ledger.  When
    a ready task is admitted and its result is processed, whether a value
    or an exception, [process_result] ends normally and the ledger is what
    it was before the admission; the task is FINISHED or FAILED. *)
Theorem dispatch_then_completion_restores_ledger (k tid : string)
  (o : outcome value error) (self : engine) :
  let tk0 := MultiprocessingEngine.get_task k tid self in
  let res := match Task.resources tk0 with
             | Some res => res
             | None => get_requirements (get_runner tk0) tk0
             end in
  let s1 := MultiprocessingEngine._run_ready_task k tid self in
  fst (acquire_resources CPU_ALL (MultiprocessingEngine.ledger self) res) = true ->
  (forall b, o <> RaisesBaseException b) ->
  Task.status (MultiprocessingEngine.get_task k tid s1) = Task.RUNNING /\
  exists s2,
    MultiprocessingEngine.process_result k tid o s1 = Done s2 /\
    MultiprocessingEngine.ledger s2 = MultiprocessingEngine.ledger self.
Proof.
  intros tk0 res s1 Hok Hexc. subst s1.
  unfold MultiprocessingEngine._run_ready_task. fold tk0. fold res.
  cbn [MultiprocessingEngine.ledger MultiprocessingEngine.set_task
       MultiprocessingEngine.set_base].
  pose proof (release_after_acquire CPU_ALL _ _ Hok) as Hback.
  destruct (acquire_resources CPU_ALL (MultiprocessingEngine.ledger self) res)
    as [ok l]. cbn [fst snd] in Hok, Hback. subst ok. cbn [negb].
  set (tk1 := match Task.resources tk0 with
              | Some _ => tk0
              | None => Task.set_resources (Some res) tk0
              end).
  assert (Hres : Task.resources tk1 = Some res).
  { subst tk1 res. destruct (Task.resources tk0) eqn:Hr; [ exact Hr | reflexivity ]. }
  clearbody tk1.
  split.
  - unfold MultiprocessingEngine.get_task. heap_simpl. reflexivity.
  - unfold MultiprocessingEngine.process_result,
      MultiprocessingEngine.process_result_rest, MultiprocessingEngine.get_task.
    heap_simpl.
    destruct o as [v | e | b]; [ | | now elim (Hexc b) ];
      heap_simpl; rewrite Hres; heap_simpl;
      destruct (resolve_task tid _ _) as [g h];
      (eexists; split; [ reflexivity | exact Hback ]).
Qed.

(** X11: when a pass of [run_all] returns.  After a polling loop that ended
    normally, the pass executes [return] exactly when it has processed at
    least one result, no item is left in [self.running], and no registered
    job has a ready task; in every other case the loop goes round again. *)
Theorem run_all_pass_exit (self s2 : engine) (to_remove : list nat) :
  let s1 := MultiprocessingEngine._run_ready_tasks self in
  MultiprocessingEngine.poll 0 (MultiprocessingEngine.running s1) [] s1 =
    Done (s2, to_remove) ->
  ((exists s', MultiprocessingEngine.run_all_pass self = Done (inl s')) <->
   to_remove <> [] /\
   MultiprocessingEngine.keep_unless 0 (MultiprocessingEngine.running s2) to_remove = [] /\
   existsb (fun k => has_ready_task
                       (Engine.job_objects (MultiprocessingEngine.base s2) k))
           (Engine.jobs (MultiprocessingEngine.base s2)) = false) /\
  ((exists s', MultiprocessingEngine.run_all_pass self = Done (inl s')) \/
   (exists s', MultiprocessingEngine.run_all_pass self = Done (inr s'))).
Proof.
  intros s1 Hpoll. unfold MultiprocessingEngine.run_all_pass. fold s1.
  rewrite Hpoll. destruct to_remove as [| n rm].
  - split; [ | right; now eexists ].
    split; [ intros (s' & Hs'); discriminate | intros (Hne & _); now elim Hne ].
  - set (s3 := MultiprocessingEngine.set_running _ s2).
    destruct (_update_jobs_check_ready_flag (MultiprocessingEngine.base s3))
      as [Hflag _].
    destruct (Engine._update_jobs_check_ready (MultiprocessingEngine.base s3))
      as [has_ready b]. cbn [fst] in Hflag.
    change (MultiprocessingEngine.base s3) with (MultiprocessingEngine.base s2) in Hflag.
    cbn [MultiprocessingEngine.running MultiprocessingEngine.set_base].
    subst s3. cbn [MultiprocessingEngine.running MultiprocessingEngine.set_running].
    rewrite <- Hflag.
    destruct (MultiprocessingEngine.keep_unless 0 _ (n :: rm)) as [| it kept];
      destruct has_ready.
    all: split; [ split | ].
    all: try (intros (s' & Hs'); discriminate).
    all: try (intros (_ & Hk & Hr); discriminate).
    all: try (right; now eexists).
    all: try (left; now eexists).
    + intros _. repeat split; discriminate || reflexivity.
    + intros _. now eexists.
Qed.

Lemma acquire_resources_totals (l : Ledger) (res : Resources) :
  total_ram (snd (acquire_resources CPU_ALL l res)) = total_ram l /\
  total_cpu (snd (acquire_resources CPU_ALL l res)) = total_cpu l.
Proof.
  unfold acquire_resources.
  destruct (mem_mb res >? available_ram l); [ split; reflexivity | ].
  destruct ((cpu res =? CPU_ALL) && _); [ split; reflexivity | ].
  destruct (cpu res >? available_cpu l); [ split; reflexivity | ].
  destruct (cpu res =? CPU_ALL); split; reflexivity.
Qed.

(** X12: the totals of the ledger are fixed at construction.  Whatever
    [MultiprocessingEngine.run_all] does and however it ends, the total RAM
    and the total number of cores are those it started with. *)
Theorem run_all_keeps_totals (fuel : nat) (self : engine) :
  let s' := state_of (MultiprocessingEngine.run_all fuel self) in
  total_ram (MultiprocessingEngine.ledger s') =
    total_ram (MultiprocessingEngine.ledger self) /\
  total_cpu (MultiprocessingEngine.ledger s') =
    total_cpu (MultiprocessingEngine.ledger self).
Proof.
  apply (run_all_keeps
           (fun s s' =>
              total_ram (MultiprocessingEngine.ledger s') =
                total_ram (MultiprocessingEngine.ledger s) /\
              total_cpu (MultiprocessingEngine.ledger s') =
                total_cpu (MultiprocessingEngine.ledger s))).
  - intros s. split; reflexivity.
  - intros a b c [H1 H2] [H3 H4]. split; congruence.
  - intros k tid s. unfold MultiprocessingEngine._run_ready_task.
    cbn [MultiprocessingEngine.ledger MultiprocessingEngine.set_task
         MultiprocessingEngine.set_base].
    match goal with
    | |- context [acquire_resources CPU_ALL ?l ?r] =>
        pose proof (acquire_resources_totals l r) as Htot;
        destruct (acquire_resources CPU_ALL l r) as [ok l']
    end.
    cbn [snd] in Htot. destruct ok; cbn; exact Htot.
  - intros k tid o s. unfold MultiprocessingEngine.process_result,
      MultiprocessingEngine.process_result_rest.
    destruct o as [v | e | b]; cbn [Task.resources Task.set_status Task.set_result];
      [ | | split; reflexivity ].
    all: destruct (Task.resources _) as [res |]; [ | split; reflexivity ].
    all: cbn; destruct (resolve_task tid _ _); cbn.
    all: destruct (release_resources_fields CPU_ALL (MultiprocessingEngine.ledger s) res)
           as (Hr & Hc & _); split; assumption.
  - intros rm s. split; reflexivity.
  - intros s. split; reflexivity.
  - intros s. split; reflexivity.
Qed.

(** X13: [MultiprocessingEngine] never makes a job RUNNING.  Whatever
    [run_all] does and however it ends, the status of each job is the one
    it had, or FINISHED, or FAILED: a QUEUED job stays QUEUED while its
    tasks run, until a recomputation finds it with no ready task. *)
Theorem run_all_job_status (fuel : nat) (self : engine) (k : string) :
  let st := fun s => Job.status (Engine.job_objects (MultiprocessingEngine.base s) k) in
  let s' := state_of (MultiprocessingEngine.run_all fuel self) in
  st s' = st self \/ st s' = Job.FINISHED \/ st s' = Job.FAILED.
Proof.
  apply (run_all_keeps
           (fun s s' =>
              Job.status (Engine.job_objects (MultiprocessingEngine.base s') k) =
                Job.status (Engine.job_objects (MultiprocessingEngine.base s) k) \/
              Job.status (Engine.job_objects (MultiprocessingEngine.base s') k) =
                Job.FINISHED \/
              Job.status (Engine.job_objects (MultiprocessingEngine.base s') k) =
                Job.FAILED)).
  - intros s. now left.
  - intros a b c Hab [Hbc | Hbc]; [ now rewrite Hbc | now right ].
  - intros k0 tid s. left. unfold MultiprocessingEngine._run_ready_task.
    cbn [MultiprocessingEngine.ledger MultiprocessingEngine.set_task
         MultiprocessingEngine.set_base].
    destruct (acquire_resources CPU_ALL _ _) as [ok l'].
    destruct ok; cbn -[String.eqb];
      destruct (String.eqb_spec k k0) as [-> | _]; cbn -[String.eqb];
      rewrite ?String.eqb_refl; reflexivity.
  - intros k0 tid o s. left. unfold MultiprocessingEngine.process_result,
      MultiprocessingEngine.process_result_rest.
    destruct o as [v | e | b]; cbn [Task.resources Task.set_status Task.set_result];
      [ | | reflexivity ].
    all: destruct (Task.resources _) as [res |].
    all: cbn -[String.eqb]; try destruct (resolve_task tid _ _); cbn -[String.eqb].
    all: destruct (String.eqb_spec k k0) as [-> | _]; cbn -[String.eqb];
      rewrite ?String.eqb_refl; reflexivity.
  - intros rm s. now left.
  - intros s. cbn [MultiprocessingEngine.base MultiprocessingEngine.set_base].
    exact (proj2 (_update_jobs_check_ready_flag (MultiprocessingEngine.base s)) k).
  - intros s. now left.
Qed.

End MultiprocessingMore.

(** ** More of the engines at work *)

Section MoreScenarios.

Local Open Scope string_scope.

Local Abbreviation seq_host := (Demo.host Demo.never).
Local Abbreviation mp_host := (Demo.host Demo.a_first).

(** A sequential engine with the fan-out job registered. *)
Local Abbreviation seq_start :=
  (Engine.register_all (H := seq_host) ["j"]
     (Engine.init (H := seq_host) (fun _ => Demo.fan_out_job))).

(** A multiprocessing engine with the pair job registered, on 4 cores and
    [ram] MB. *)
Local Abbreviation mp_start ram :=
  (MultiprocessingEngine.set_base (H := mp_host)
     (Engine.register_all (H := mp_host) ["j"]
        (Engine.init (H := mp_host) (fun _ => Demo.pair_job)))
     (MultiprocessingEngine.init (H := mp_host) (fun _ => Demo.pair_job) ram 4)).

Local Abbreviation dispatched :=
  (MultiprocessingEngine._run_ready_tasks (H := mp_host) (mp_start 1000)).

Local Abbreviation polled :=
  (state_of (MultiprocessingEngine.poll (H := mp_host) 0
               (MultiprocessingEngine.running dispatched) [] dispatched)).

Lemma polled_done :
  MultiprocessingEngine.poll (H := mp_host) 0
    (MultiprocessingEngine.running dispatched) [] dispatched =
  Done (fst polled, snd polled).
Proof.
  rewrite <- surjective_pairing. apply returned_Done. vm_compute. reflexivity.
Qed.

Lemma sequential_run_all_reentrant_witness :
  SequentialEngine.run_all (H := seq_host) 5
    (state_of (SequentialEngine.run_all (H := seq_host) 10 seq_start)) =
  Done (state_of (SequentialEngine.run_all (H := seq_host) 10 seq_start)).
Proof.
  assert (Hdone : SequentialEngine.run_all (H := seq_host) 10 seq_start =
                  Done (state_of (SequentialEngine.run_all (H := seq_host) 10 seq_start))).
  { apply returned_Done. vm_compute. reflexivity. }
  exact (proj2 (proj2 (proj2
           (sequential_run_all_reentrant (H := seq_host) 10 seq_start _ Hdone))) 5%nat).
Defined.

Lemma completed_items_removed_witness :
  MultiprocessingEngine.keep_unless 0 (MultiprocessingEngine.running dispatched)
    (snd polled) =
    filter (fun it => negb (item_ready (H := mp_host)
                              (MultiprocessingEngine.clock dispatched) it))
           (MultiprocessingEngine.running dispatched) /\
  List.length (snd polled) =
    List.length (filter (item_ready (H := mp_host)
                           (MultiprocessingEngine.clock dispatched))
                        (MultiprocessingEngine.running dispatched)).
Proof.
  exact (completed_items_removed (H := mp_host) dispatched (fst polled) (snd polled)
           polled_done).
Defined.

Lemma rejected_task_left_alone_witness :
  MultiprocessingEngine.ledger
    (MultiprocessingEngine._run_ready_task (H := mp_host) "j" "a" (mp_start 50)) =
    init_ledger 50 4 /\
  Task.resources
    (MultiprocessingEngine.get_task "j" "a"
       (MultiprocessingEngine._run_ready_task (H := mp_host) "j" "a" (mp_start 50))) =
    Some (mkResources 100 1).
Proof.
  assert (Hrej : fst (acquire_resources (CPU_ALL (Host := mp_host))
                        (MultiprocessingEngine.ledger (mp_start 50))
                        (mkResources 100 1)) = false) by reflexivity.
  pose proof (rejected_task_left_alone (H := mp_host) "j" "a" (mp_start 50) Hrej)
    as (Hl & _ & _ & _ & Hres & _).
  split; [ exact Hl | exact Hres ].
Defined.

Lemma dispatch_then_completion_restores_ledger_witness :
  exists s2,
    MultiprocessingEngine.process_result (H := mp_host) "j" "a"
      (RaisesException "boom")
      (MultiprocessingEngine._run_ready_task "j" "a" (mp_start 1000)) = Done s2 /\
    MultiprocessingEngine.ledger s2 = init_ledger 1000 4.
Proof.
  assert (Hok : fst (acquire_resources (CPU_ALL (Host := mp_host))
                       (MultiprocessingEngine.ledger (mp_start 1000))
                       (mkResources 100 1)) = true) by reflexivity.
  assert (Hexc : forall b : string,
             RaisesException (value := string) "boom" <> RaisesBaseException b)
    by (intros b; discriminate).
  exact (proj2 (dispatch_then_completion_restores_ledger (H := mp_host) "j" "a"
                  (RaisesException "boom") (mp_start 1000) Hok Hexc)).
Defined.

Lemma run_all_pass_exit_witness :
  (exists s', MultiprocessingEngine.run_all_pass (H := mp_host) (mp_start 1000) =
              Done (inl s')) \/
  (exists s', MultiprocessingEngine.run_all_pass (H := mp_host) (mp_start 1000) =
              Done (inr s')).
Proof.
  exact (proj2 (run_all_pass_exit (H := mp_host) (mp_start 1000)
                  (fst polled) (snd polled) polled_done)).
Defined.

End MoreScenarios.

(** ** [rabix/main.py]: dicts, [update_paths] and [fix_types] *)

Section DictFacts.

Local Open Scope string_scope.

Lemma dict_get_set_same (d : list (string * pyobj)) (k : string) (v : pyobj) :
  dict_get (dict_set d k v) k = Some v.
Proof.
  induction d as [| [k' v'] rest IH]; cbn; [ now rewrite String.eqb_refl | ].
  destruct (String.eqb k' k) eqn:Hk; cbn; rewrite Hk; [ reflexivity | exact IH ].
Qed.

Lemma dict_get_set_other (d : list (string * pyobj)) (k k0 : string) (v : pyobj) :
  k0 <> k -> dict_get (dict_set d k v) k0 = dict_get d k0.
Proof.
  intros Hne. induction d as [| [k' v'] rest IH]; cbn.
  - destruct (String.eqb_spec k k0); [ now subst | reflexivity ].
  - destruct (String.eqb_spec k' k) as [-> | Hk]; cbn.
    + destruct (String.eqb_spec k k0); [ now subst | reflexivity ].
    + destruct (String.eqb k' k0); [ reflexivity | exact IH ].
Qed.

Lemma dict_set_same (d : list (string * pyobj)) (k : string) (v : pyobj) :
  dict_get d k = Some v -> dict_set d k v = d.
Proof.
  induction d as [| [k' v'] rest IH]; cbn; [ discriminate | ].
  destruct (String.eqb k' k); [ now intros [= ->] | ].
  intros Hget. now rewrite IH.
Qed.

Lemma dict_set_set (d : list (string * pyobj)) (k : string) (v v0 : pyobj) :
  dict_set (dict_set d k v) k v0 = dict_set d k v0.
Proof.
  induction d as [| [k' v'] rest IH]; cbn; [ now rewrite String.eqb_refl | ].
  destruct (String.eqb k' k) eqn:Hk; cbn; rewrite Hk; [ reflexivity | now rewrite IH ].
Qed.

Lemma dict_set_keys (d : list (string * pyobj)) (k : string) (v : pyobj) :
  map fst (dict_set d k v) =
    (map fst d ++ if dict_has d k then [] else [k])%list.
Proof.
  unfold dict_has. induction d as [| [k' v'] rest IH]; cbn; [ reflexivity | ].
  destruct (String.eqb k' k); cbn; [ now rewrite app_nil_r | now rewrite IH ].
Qed.

Lemma dict_get_keys (d : list (string * pyobj)) (k : string) :
  In k (map fst d) -> exists v, dict_get d k = Some v.
Proof.
  induction d as [| [k' v'] rest IH]; cbn; [ contradiction | ].
  destruct (String.eqb_spec k' k) as [-> | Hne]; [ now eexists | ].
  intros [Heq | Hin]; [ contradiction | now apply IH ].
Qed.

(** What one assignment of the loop of [update_paths] does to a job whose
    inputs are a dict. *)
Lemma update_paths_loop_spec (src : list (string * pyobj)) (keys : list string) :
  forall (dj target : list (string * pyobj)) (job' : pyobj),
    dict_get dj "inputs" = Some (PDict target) ->
    update_paths_loop src keys (PDict dj) = Ok job' ->
    exists dj' target',
      job' = PDict dj' /\
      dict_get dj' "inputs" = Some (PDict target') /\
      map fst dj' = map fst dj /\
      (forall k, k <> "inputs" -> dict_get dj' k = dict_get dj k) /\
      forall k, dict_get target' k =
                  if existsb (String.eqb k) keys
                  then dict_get src k else dict_get target k.
Proof.
  induction keys as [| inp rest IH]; intros dj target job' Hin; cbn.
  - intros [= <-]. exists dj, target. repeat split; assumption || reflexivity.
  - unfold update_paths_step.
    destruct (dict_get src inp) as [v |] eqn:Hsrc; [ | discriminate ].
    rewrite Hin. cbn [bind]. intros Hloop.
    destruct (IH _ (dict_set target inp v) job' (dict_get_set_same _ _ _) Hloop)
      as (dj' & target' & -> & Hin' & Hkeys & Hother & Hmerge).
    exists dj', target'. split; [ reflexivity | split; [ exact Hin' | ] ].
    split; [ | split ].
    + rewrite Hkeys, dict_set_keys. unfold dict_has. rewrite Hin.
      now rewrite app_nil_r.
    + intros k Hk. rewrite (Hother k Hk). now apply dict_get_set_other.
    + intros k. rewrite Hmerge.
      destruct (existsb (String.eqb k) rest) eqn:Hrest;
        [ now rewrite orb_true_r | rewrite orb_false_r ].
      destruct (String.eqb_spec k inp) as [-> | Hne].
      * now rewrite dict_get_set_same.
      * now apply dict_get_set_other.
Qed.

(** X14: [update_paths] merges the given inputs into the inputs of the
    job.  When it returns, every key of [inputs['inputs']] has its value in
    [job['inputs']], the other inputs of the job have the value they had,
    and nothing else in the job has changed, not even the order of its
    keys; with no key to copy the job is returned untouched, whatever it
    is. *)
Theorem update_paths_merges (job inputs job' : pyobj) :
  update_paths job inputs = Ok job' ->
  exists di src,
    inputs = PDict di /\ dict_get di "inputs" = Some (PDict src) /\
    (src = [] -> job' = job) /\
    (src <> [] ->
     exists dj target dj' target',
       job = PDict dj /\ dict_get dj "inputs" = Some (PDict target) /\
       job' = PDict dj' /\ dict_get dj' "inputs" = Some (PDict target') /\
       map fst dj' = map fst dj /\
       (forall k, k <> "inputs" -> dict_get dj' k = dict_get dj k) /\
       forall k, dict_get target' k =
                   match dict_get src k with
                   | Some v => Some v
                   | None => dict_get target k
                   end).
Proof.
  unfold update_paths.
  destruct inputs as [| | | | | | di]; try discriminate.
  destruct (dict_get di "inputs") as [[| | | | | | src] |] eqn:Hdi; try discriminate.
  intros Hloop. exists di, src. split; [ reflexivity | split; [ exact Hdi | ] ].
  split.
  - intros ->. cbn in Hloop. now injection Hloop as <-.
  - intros Hne. destruct src as [| [k0 v0] src0]; [ now elim Hne | ].
    assert (Hjob : exists dj target,
               job = PDict dj /\ dict_get dj "inputs" = Some (PDict target)).
    { cbn [map fst update_paths_loop] in Hloop. unfold update_paths_step in Hloop.
      cbn [dict_get] in Hloop. rewrite String.eqb_refl in Hloop.
      destruct job as [| | | | | | dj]; try discriminate.
      destruct (dict_get dj "inputs") as [[| | | | | | target] |] eqn:Hin;
        try discriminate.
      exists dj, target. split; [ reflexivity | exact Hin ]. }
    clear Hne. remember ((k0, v0) :: src0) as src eqn:Hsrc. clear Hsrc.
    destruct Hjob as (dj & target & -> & Hin).
    destruct (update_paths_loop_spec src (map fst src) dj target job' Hin Hloop)
      as (dj' & target' & -> & Hin' & Hkeys & Hother & Hmerge).
    exists dj, target, dj', target'. repeat split; try assumption.
    intros k. rewrite Hmerge.
    destruct (existsb (String.eqb k) (map fst src)) eqn:Hex.
    + apply existsb_exists in Hex. destruct Hex as (k' & Hk' & Heq).
      apply String.eqb_eq in Heq. subst k'.
      destruct (dict_get_keys src k Hk') as (v & ->). reflexivity.
    + destruct (dict_get src k) as [v |] eqn:Hget; [ | reflexivity ].
      assert (Hk : In k (map fst src)).
      { clear -Hget. induction src as [| [k' v'] rest IH]; cbn in *; [ discriminate | ].
        destruct (String.eqb_spec k' k); [ now left | right; now apply IH ]. }
      assert (Hex' : existsb (String.eqb k) (map fst src) = true).
      { apply existsb_exists. exists k. split; [ exact Hk | apply String.eqb_refl ]. }
      congruence.
Qed.

End DictFacts.

Section FixTypesFacts.

Local Open Scope string_scope.

Lemma dict_set_nonempty (d : list (string * pyobj)) (k : string) (v : pyobj) :
  truthy (PDict (dict_set d k v)) = true.
Proof. destruct d as [| [k' v'] rest]; cbn; [ | destruct (String.eqb k' k) ]; reflexivity. Qed.

(** The container part writes under [requirements] only. *)
Lemma fix_container_frame (d d1 : list (string * pyobj)) :
  fix_container d = Ok d1 ->
  map fst d1 = map fst d /\
  forall k, k <> "requirements" -> dict_get d1 k = dict_get d k.
Proof.
  unfold fix_container.
  destruct (dict_get d "requirements") as [r |] eqn:Hreq.
  - destruct r as [| | | | | | req]; try discriminate.
    destruct (truthy _); [ | intros [= <-]; split; reflexivity ].
    destruct (dict_get req "environment") as [[| | | | | | env] |];
      try discriminate.
    destruct (dict_get env "container") as [[| | | | | | c] |];
      try (intros [= <-]; split; reflexivity).
    destruct (is_str _ _); intros [= <-]; [ | split; reflexivity ].
    split.
    + rewrite dict_set_keys. unfold dict_has. rewrite Hreq. apply app_nil_r.
    + intros k Hk. now apply dict_get_set_other.
  - cbn. intros [= <-]. split; reflexivity.
Qed.

(** Once the container part has run, it changes nothing in any dict that
    has the same [requirements]. *)
Lemma fix_container_fixed (d d1 d' : list (string * pyobj)) :
  fix_container d = Ok d1 ->
  dict_get d' "requirements" = dict_get d1 "requirements" ->
  fix_container d' = Ok d'.
Proof.
  unfold fix_container.
  destruct (dict_get d "requirements") as [r |] eqn:Hreq.
  - destruct r as [| | | | | | req]; try discriminate.
    destruct (dict_get req "environment") as [environment |] eqn:Henv.
    + destruct (truthy environment) eqn:Htruthy;
        [ | intros [= <-] ->; rewrite Hreq; cbv beta iota;
            rewrite Henv, Htruthy; reflexivity ].
      destruct environment as [| | | | | | env]; try discriminate.
      destruct (dict_get env "container") as [[| | | | | | c] |] eqn:Hc;
        try (intros [= <-] ->; rewrite Hreq; cbv beta iota;
             rewrite Henv, Htruthy; cbv beta iota; rewrite Hc; reflexivity).
      destruct (is_str (dict_get c "type") "docker") eqn:Hdocker;
        [ | intros [= <-] ->; rewrite Hreq; cbv beta iota;
            rewrite Henv, Htruthy; cbv beta iota; rewrite Hc; cbv beta iota;
            rewrite Hdocker; reflexivity ].
      intros [= <-]. rewrite dict_get_set_same. intros Hsame. rewrite Hsame.
      cbv beta iota.
      rewrite dict_get_set_same, dict_set_nonempty. cbv beta iota.
      rewrite dict_get_set_same. cbv beta iota.
      rewrite (dict_get_set_other c "@type" "type") by discriminate.
      rewrite Hdocker, !dict_set_set.
      now rewrite (dict_set_same d' _ _ Hsame).
    + cbn [truthy]. intros [= <-] ->. rewrite Hreq. cbv beta iota.
      rewrite Henv. reflexivity.
  - cbn. intros [= <-] ->. rewrite Hreq. reflexivity.
Qed.

Lemma fix_schema_frame (key : string) (d : list (string * pyobj)) :
  map fst (fix_schema key d) = map fst d /\
  forall k, k <> key -> dict_get (fix_schema key d) k = dict_get d k.
Proof.
  unfold fix_schema.
  destruct (dict_get d key) as [[| | | | | | schema] |] eqn:Hkey;
    try (split; reflexivity).
  destruct (dict_has schema "@type"); [ split; reflexivity | ].
  split.
  - rewrite dict_set_keys. unfold dict_has. rewrite Hkey. apply app_nil_r.
  - intros k Hk. now apply dict_get_set_other.
Qed.

Lemma fix_schema_fixed (key : string) (d d' : list (string * pyobj)) :
  dict_get d' key = dict_get (fix_schema key d) key ->
  fix_schema key d' = d'.
Proof.
  unfold fix_schema at 1.
  destruct (dict_get d key) as [[| | | | | | schema] |] eqn:Hkey;
    try (rewrite Hkey; intros Hsame; unfold fix_schema; now rewrite Hsame).
  destruct (dict_has schema "@type") eqn:Hhas.
  - rewrite Hkey. intros Hsame. unfold fix_schema. now rewrite Hsame, Hhas.
  - rewrite dict_get_set_same. intros Hsame. unfold fix_schema. rewrite Hsame.
    unfold dict_has. now rewrite dict_get_set_same.
Qed.

Lemma fix_step_fixed (f : pyobj -> pyrun pyobj) (step step' : pyobj) :
  (forall a a', f a = Ok a' -> f a' = Ok a') ->
  fix_step f step = Ok step' -> fix_step f step' = Ok step'.
Proof.
  intros Hf. unfold fix_step.
  destruct step as [| | | | | | sd]; try discriminate.
  destruct (dict_get sd "app") as [app |]; [ | discriminate ].
  destruct (f app) as [app' | |] eqn:Happ; try discriminate.
  cbn. intros [= <-]. rewrite dict_get_set_same, (Hf _ _ Happ). cbn.
  now rewrite dict_set_set.
Qed.

Lemma for_each_fixed (f : pyobj -> pyrun pyobj) (l : list pyobj) :
  (forall a a', f a = Ok a' -> f a' = Ok a') ->
  forall l', for_each f l = Ok l' -> for_each f l' = Ok l'.
Proof.
  intros Hf. induction l as [| a rest IH]; cbn; [ now intros l' [= <-] | ].
  destruct (f a) as [a' | |] eqn:Ha; try discriminate. cbn.
  destruct (for_each f rest) as [rest' | |]; try discriminate. cbn.
  intros l' [= <-]. cbn. now rewrite (Hf _ _ Ha), (IH rest' eq_refl).
Qed.

(** The steps part writes under [steps] only. *)
Lemma fix_steps_frame (f : pyobj -> pyrun pyobj) (d d1 : list (string * pyobj)) :
  fix_steps f d = Ok d1 ->
  map fst d1 = map fst d /\
  forall k, k <> "steps" -> dict_get d1 k = dict_get d k.
Proof.
  unfold fix_steps. destruct (is_str _ _); [ | intros [= <-]; split; reflexivity ].
  destruct (dict_get d "steps") as [[| | | | [| ? ?] | steps | [| ? ?]] |] eqn:Hsteps;
    try discriminate; try (intros [= <-]; split; reflexivity).
  destruct (for_each _ steps) as [steps' | |]; try discriminate. cbn.
  intros [= <-]. split.
  - rewrite dict_set_keys. unfold dict_has. rewrite Hsteps. apply app_nil_r.
  - intros k Hk. now apply dict_get_set_other.
Qed.

Lemma fix_steps_fixed (f : pyobj -> pyrun pyobj) (d d1 d' : list (string * pyobj)) :
  (forall a a', f a = Ok a' -> f a' = Ok a') ->
  fix_steps f d = Ok d1 ->
  dict_get d' "@type" = dict_get d1 "@type" ->
  dict_get d' "steps" = dict_get d1 "steps" ->
  fix_steps f d' = Ok d'.
Proof.
  intros Hf Hfix Htype Hsteps.
  destruct (fix_steps_frame f d d1 Hfix) as [_ Hother].
  rewrite (Hother "@type") in Htype by discriminate.
  unfold fix_steps in *. rewrite Htype.
  destruct (is_str (dict_get d "@type") "Workflow"); [ | reflexivity ].
  destruct (dict_get d "steps") as [[| | | | [| ? ?] | steps | [| ? ?]] |] eqn:Hd;
    try discriminate.
  - injection Hfix as <-. now rewrite Hsteps, Hd.
  - destruct (for_each (fix_step f) steps) as [steps' | |] eqn:Hfor;
      try discriminate.
    cbn in Hfix. injection Hfix as <-.
    rewrite dict_get_set_same in Hsteps. rewrite Hsteps.
    rewrite (for_each_fixed (fix_step f) steps
               (fun a a' => fix_step_fixed f a a' Hf) steps' Hfor).
    cbn. now rewrite (dict_set_same d' _ _ Hsteps).
  - injection Hfix as <-. now rewrite Hsteps, Hd.
Qed.

(** X15: what [fix_types] does to the keys of a tool.  When it returns,
    the tool is a dict that has the keys it had, in the same order, plus
    ['@type'] at the end if it was missing; its ['@type'] is the one it had,
    or else ['CommandLineTool']; and apart from [requirements], [steps],
    [inputs] and [outputs] every key has the value it had. *)
Theorem fix_types_adds_type (fuel : nat) (tool tool' : pyobj) :
  fix_types fuel tool = Ok tool' ->
  exists d d',
    tool = PDict d /\ tool' = PDict d' /\
    map fst d' =
      (map fst d ++ if dict_has d "@type" then [] else ["@type"])%list /\
    dict_get d' "@type" =
      Some (match dict_get d "@type" with
            | Some v => v
            | None => PStr "CommandLineTool"
            end) /\
    forall k, k <> "requirements" -> k <> "@type" -> k <> "steps" ->
              k <> "inputs" -> k <> "outputs" ->
              dict_get d' k = dict_get d k.
Proof.
  destruct fuel as [| fuel]; [ discriminate | ]. cbn [fix_types].
  destruct tool as [| | | | | | d]; try discriminate.
  destruct (fix_container d) as [d1 | |] eqn:Hc; try discriminate. cbn [bind].
  set (d2 := if dict_has d1 "@type" then d1
             else dict_set d1 "@type" (PStr "CommandLineTool")).
  destruct (fix_steps (fix_types fuel) d2) as [d3 | |] eqn:Hs; try discriminate.
  cbn [bind]. intros [= <-].
  destruct (fix_container_frame d d1 Hc) as [Hk1 Ho1].
  destruct (fix_steps_frame _ d2 d3 Hs) as [Hk3 Ho3].
  destruct (fix_schema_frame "inputs" d3) as [Hk4 Ho4].
  destruct (fix_schema_frame "outputs" (fix_schema "inputs" d3)) as [Hk5 Ho5].
  assert (Hhas : dict_has d1 "@type" = dict_has d "@type").
  { unfold dict_has. rewrite Ho1 by discriminate. reflexivity. }
  assert (Hk2 : map fst d2 =
                (map fst d ++ if dict_has d "@type" then [] else ["@type"])%list).
  { subst d2. rewrite <- Hhas. destruct (dict_has d1 "@type") eqn:H1.
    - now rewrite app_nil_r.
    - now rewrite dict_set_keys, H1, Hk1. }
  assert (Ht2 : dict_get d2 "@type" =
                Some (match dict_get d "@type" with
                      | Some v => v
                      | None => PStr "CommandLineTool"
                      end)).
  { subst d2. unfold dict_has in *. rewrite <- (Ho1 "@type") by discriminate.
    destruct (dict_get d1 "@type") eqn:H1; [ exact H1 | apply dict_get_set_same ]. }
  assert (Ho2 : forall k, k <> "@type" -> dict_get d2 k = dict_get d1 k).
  { intros k Hk. subst d2. destruct (dict_has d1 "@type"); [ reflexivity | ].
    now apply dict_get_set_other. }
  exists d, (fix_schema "outputs" (fix_schema "inputs" d3)).
  split; [ reflexivity | split; [ reflexivity | ] ].
  split; [ now rewrite Hk5, Hk4, Hk3 | split ].
  - rewrite Ho5, Ho4, Ho3 by discriminate. exact Ht2.
  - intros k H1 H2 H3 H4 H5.
    now rewrite Ho5, Ho4, Ho3, Ho2, Ho1.
Qed.

(** X16: [fix_types] is idempotent.  A tool it has returned on is left
    exactly as it is by a second call. *)
Theorem fix_types_idempotent (fuel : nat) :
  forall tool tool', fix_types fuel tool = Ok tool' -> fix_types fuel tool' = Ok tool'.
Proof.
  induction fuel as [| fuel IH]; intros tool tool'; [ discriminate | ].
  cbn [fix_types].
  destruct tool as [| | | | | | d]; try discriminate.
  destruct (fix_container d) as [d1 | |] eqn:Hc; try discriminate. cbn [bind].
  set (d2 := if dict_has d1 "@type" then d1
             else dict_set d1 "@type" (PStr "CommandLineTool")).
  destruct (fix_steps (fix_types fuel) d2) as [d3 | |] eqn:Hs; try discriminate.
  cbn [bind]. intros [= <-].
  set (d4 := fix_schema "inputs" d3). set (d5 := fix_schema "outputs" d4).
  destruct (fix_steps_frame _ d2 d3 Hs) as [_ Ho3].
  destruct (fix_schema_frame "inputs" d3) as [_ Ho4]. fold d4 in Ho4.
  destruct (fix_schema_frame "outputs" d4) as [_ Ho5]. fold d5 in Ho5.
  assert (Ho2 : forall k, k <> "@type" -> dict_get d2 k = dict_get d1 k).
  { intros k Hk. subst d2. destruct (dict_has d1 "@type"); [ reflexivity | ].
    now apply dict_get_set_other. }
  assert (Hhas2 : dict_has d2 "@type" = true).
  { subst d2. destruct (dict_has d1 "@type") eqn:H1; [ exact H1 | ].
    unfold dict_has. now rewrite dict_get_set_same. }
  assert (Hc5 : fix_container d5 = Ok d5).
  { apply (fix_container_fixed d d1 d5 Hc).
    now rewrite Ho5, Ho4, Ho3, Ho2 by discriminate. }
  rewrite Hc5. cbn [bind].
  assert (Hhas5 : dict_has d5 "@type" = true).
  { unfold dict_has in *. now rewrite Ho5, Ho4, Ho3 by discriminate. }
  rewrite Hhas5.
  assert (Hs5 : fix_steps (fix_types fuel) d5 = Ok d5).
  { apply (fix_steps_fixed (fix_types fuel) d2 d3 d5 IH Hs).
    - now rewrite Ho5, Ho4 by discriminate.
    - now rewrite Ho5, Ho4 by discriminate. }
  rewrite Hs5. cbn [bind].
  assert (H4 : fix_schema "inputs" d5 = d5).
  { apply (fix_schema_fixed "inputs" d3 d5). fold d4. now rewrite Ho5 by discriminate. }
  rewrite H4.
  assert (H5 : fix_schema "outputs" d5 = d5).
  { now apply (fix_schema_fixed "outputs" d4 d5). }
  now rewrite H5.
Qed.

Lemma depth_get (d : list (string * pyobj)) (k : string) (v : pyobj) :
  dict_get d k = Some v -> (depth v < depth (PDict d))%nat.
Proof.
  cbn [depth]. induction d as [| [k' v'] rest IH]; cbn; [ discriminate | ].
  destruct (String.eqb k' k); [ intros [= ->]; lia | ].
  intros Hget. specialize (IH Hget). lia.
Qed.

Lemma depth_in (l : list pyobj) (x : pyobj) :
  In x l -> (depth x < depth (PList l))%nat.
Proof.
  cbn [depth]. induction l as [| y rest IH]; cbn; [ contradiction | ].
  intros [-> | Hin]; [ lia | specialize (IH Hin); lia ].
Qed.

Lemma for_each_within_limit {A B : Type} (f : A -> pyrun B) (l : list A) :
  (forall a, In a l -> f a <> RecursionError) -> for_each f l <> RecursionError.
Proof.
  induction l as [| a rest IH]; intros Hf; cbn; [ discriminate | ].
  pose proof (Hf a (or_introl eq_refl)) as Ha.
  destruct (f a) as [b | e |]; cbn; [ | discriminate | contradiction ].
  assert (Hrest : for_each f rest <> RecursionError)
    by (apply IH; intros a' Hin; apply Hf; now right).
  destruct (for_each f rest); cbn; [ discriminate | discriminate | contradiction ].
Qed.

Lemma for_each_more {A B : Type} (f g : A -> pyrun B) (l : list A) :
  (forall a, f a <> RecursionError -> g a = f a) ->
  for_each f l <> RecursionError -> for_each g l = for_each f l.
Proof.
  intros Hfg. induction l as [| a rest IH]; cbn; [ reflexivity | ].
  destruct (f a) as [b | e |] eqn:Ha; cbn; intros Hne.
  - rewrite (Hfg a) by (rewrite Ha; discriminate). rewrite Ha. cbn.
    rewrite IH; [ reflexivity | ].
    revert Hne. destruct (for_each f rest); cbn; intros Hne;
      first [ discriminate | exfalso; apply Hne; reflexivity ].
  - rewrite (Hfg a) by (rewrite Ha; discriminate). now rewrite Ha.
  - contradiction.
Qed.

Lemma fix_container_within_limit (d : list (string * pyobj)) :
  fix_container d <> RecursionError.
Proof.
  unfold fix_container.
  destruct (match dict_get d "requirements" with Some r => r | None => PDict [] end);
    try discriminate.
  destruct (truthy _); [ | discriminate ].
  destruct (match dict_get d0 "environment" with Some e => e | None => PNone end);
    try discriminate.
  destruct (dict_get d1 "container") as [[| | | | | | c] |]; try discriminate.
  destruct (is_str _ _); discriminate.
Qed.

Lemma fix_steps_more (f g : pyobj -> pyrun pyobj) (d : list (string * pyobj)) :
  (forall a, f a <> RecursionError -> g a = f a) ->
  fix_steps f d <> RecursionError -> fix_steps g d = fix_steps f d.
Proof.
  intros Hfg. unfold fix_steps. destruct (is_str _ _); [ | reflexivity ].
  destruct (dict_get d "steps") as [[| | | | | steps |] |]; try reflexivity.
  intros Hne.
  assert (Hfor : for_each (fix_step g) steps = for_each (fix_step f) steps).
  { apply for_each_more.
    - intros step. unfold fix_step. destruct step as [| | | | | | sd]; try reflexivity.
      destruct (dict_get sd "app") as [app |]; [ | reflexivity ].
      intros Happ. rewrite Hfg; [ reflexivity | ].
      revert Happ. destruct (f app); cbn; intros Happ;
        first [ discriminate | exfalso; apply Happ; reflexivity ].
    - revert Hne. destruct (for_each (fix_step f) steps); cbn; intros Hne;
        first [ discriminate | exfalso; apply Hne; reflexivity ]. }
  now rewrite Hfor.
Qed.

Lemma fix_types_S (limit : nat) (tool : pyobj) :
  fix_types (S limit) tool =
    match tool with
    | PDict d =>
        bind (fix_container d) (fun d =>
        let d := if dict_has d "@type" then d
                 else dict_set d "@type" (PStr "CommandLineTool") in
        bind (fix_steps (fix_types limit) d) (fun d =>
        Ok (PDict (fix_schema "outputs" (fix_schema "inputs" d)))))
    | _ => Raise PyAttributeError
    end.
Proof. reflexivity. Qed.

(** A call that ends without the recursion error ends in the same way when
    one more nested call is allowed. *)
Lemma fix_types_more (limit : nat) :
  forall tool, fix_types limit tool <> RecursionError ->
               fix_types (S limit) tool = fix_types limit tool.
Proof.
  induction limit as [| limit IH]; intros tool; [ now cbn | ].
  rewrite (fix_types_S (S limit)), (fix_types_S limit).
  destruct tool as [| | | | | | d]; try reflexivity.
  destruct (fix_container d) as [d1 | |]; try reflexivity. cbn [bind].
  set (d2 := if dict_has d1 "@type" then d1
             else dict_set d1 "@type" (PStr "CommandLineTool")).
  intros Hne.
  rewrite (fix_steps_more (fix_types limit) (fix_types (S limit)) d2 IH);
    [ reflexivity | ].
  revert Hne. destruct (fix_steps (fix_types limit) d2); cbn; intros Hne;
    first [ discriminate | exfalso; apply Hne; reflexivity ].
Qed.

Lemma fix_types_enough (limit : nat) :
  forall tool, (depth tool < limit)%nat -> fix_types limit tool <> RecursionError.
Proof.
  induction limit as [| limit IH]; intros tool Hdepth; [ lia | ].
  cbn [fix_types].
  destruct tool as [| | | | | | d]; try discriminate.
  pose proof (fix_container_within_limit d) as Hc.
  destruct (fix_container d) as [d1 | |] eqn:Hd1; [ | discriminate | contradiction ].
  cbn [bind].
  set (d2 := if dict_has d1 "@type" then d1
             else dict_set d1 "@type" (PStr "CommandLineTool")).
  assert (Hsteps2 : dict_get d2 "steps" = dict_get d "steps").
  { destruct (fix_container_frame d d1 Hd1) as [_ Ho1].
    subst d2. destruct (dict_has d1 "@type");
      [ | rewrite dict_get_set_other by discriminate ];
      now rewrite Ho1 by discriminate. }
  assert (Hs : fix_steps (fix_types limit) d2 <> RecursionError).
  { unfold fix_steps. destruct (is_str _ _); [ | discriminate ].
    rewrite Hsteps2.
    destruct (dict_get d "steps") as [[| | | | [| ? ?] | steps | [| ? ?]] |] eqn:Hget;
      try discriminate.
    assert (Hfor : for_each (fix_step (fix_types limit)) steps <> RecursionError).
    { apply for_each_within_limit. intros step Hin. unfold fix_step.
      destruct step as [| | | | | | sd]; try discriminate.
      destruct (dict_get sd "app") as [app |] eqn:Happ; [ | discriminate ].
      assert (Hlt : (depth app < limit)%nat).
      { pose proof (depth_get sd "app" app Happ).
        pose proof (depth_in steps _ Hin).
        pose proof (depth_get d "steps" _ Hget). lia. }
      specialize (IH app Hlt).
      destruct (fix_types limit app); cbn; [ discriminate | discriminate | contradiction ]. }
    destruct (for_each _ steps); cbn; [ discriminate | discriminate | contradiction ]. }
  destruct (fix_steps (fix_types limit) d2); cbn;
    [ discriminate | discriminate | contradiction ].
Qed.

(** A workflow nested [n] times takes more than [n] nested calls. *)
Lemma fix_types_nested_workflow (n : nat) :
  forall limit, (limit <= n)%nat ->
                fix_types limit (nested_workflow n) = RecursionError.
Proof.
  induction n as [| n IH]; intros [| limit] Hle; try reflexivity; [ lia | ].
  rewrite fix_types_S. cbn [nested_workflow].
  change (fix_container _) with
    (Ok (A := list (string * pyobj))
        [("@type", PStr "Workflow");
         ("steps", PList [PDict [("app", nested_workflow n)]])]).
  cbn [bind]. change (dict_has _ "@type") with true. cbv iota.
  unfold fix_steps.
  change (is_str _ "Workflow") with true. cbv iota.
  change (dict_get _ "steps")
    with (Some (PList [PDict [("app", nested_workflow n)]])).
  cbv iota. cbn [for_each]. unfold fix_step at 1.
  change (dict_get [("app", nested_workflow n)] "app")
    with (Some (nested_workflow n)).
  cbv iota. rewrite IH by lia. reflexivity.
Qed.

(** X17: how deep [fix_types] nests its calls.  It calls itself on the apps
    of the steps of a workflow only, so no deeper than the tool is nested:
    when the interpreter accepts more nested calls than the tool has levels
    of lists and dicts, the call ends with a tool or with one of its own
    exceptions, not with the recursion error, and in the same way as under
    any such limit.  The recursion error is what a tool nested too deep
    gets: a workflow nested [n] times, when no more than [n] nested calls
    are accepted. *)
Theorem fix_types_recursion_depth :
  (forall (tool : pyobj) (limit : nat),
     (depth tool < limit)%nat ->
     fix_types limit tool <> RecursionError /\
     fix_types limit tool = fix_types (S (depth tool)) tool) /\
  (forall n limit : nat,
     (limit <= n)%nat -> fix_types limit (nested_workflow n) = RecursionError).
Proof.
  split; [ | intros n limit; apply fix_types_nested_workflow ].
  intros tool limit Hdepth. split; [ now apply fix_types_enough | ].
  assert (Hadd : forall n, fix_types (n + S (depth tool)) tool =
                           fix_types (S (depth tool)) tool).
  { induction n as [| n IHn]; [ reflexivity | ].
    cbn [Nat.add]. rewrite fix_types_more; [ exact IHn | ].
    rewrite IHn. apply fix_types_enough. lia. }
  replace limit with ((limit - S (depth tool)) + S (depth tool))%nat by lia.
  apply Hadd.
Qed.

End FixTypesFacts.

Lemma update_paths_merges_witness :
  update_paths demo_job demo_inputs = Ok demo_job_updated /\
  exists di src,
    demo_inputs = PDict di /\ dict_get di "inputs"%string = Some (PDict src).
Proof.
  split; [ reflexivity | ].
  destruct (update_paths_merges demo_job demo_inputs demo_job_updated eq_refl)
    as (di & src & Hin & Hsrc & _).
  exists di, src. split; [ exact Hin | exact Hsrc ].
Defined.

Lemma fix_types_adds_type_witness :
  exists d d',
    demo_tool = PDict d /\ demo_tool_fixed = PDict d' /\
    dict_get d' "@type"%string = Some (PStr "Workflow").
Proof.
  destruct (fix_types_adds_type 5 demo_tool demo_tool_fixed eq_refl)
    as (d & d' & Ht & Ht' & _ & Htype & _).
  exists d, d'. split; [ exact Ht | split; [ exact Ht' | ] ].
  rewrite Htype. injection Ht as <-. reflexivity.
Defined.

Lemma fix_types_idempotent_witness :
  fix_types 5 demo_tool_fixed = Ok demo_tool_fixed.
Proof. exact (fix_types_idempotent 5 demo_tool demo_tool_fixed eq_refl). Defined.

Lemma fix_types_recursion_depth_witness :
  (fix_types 9 demo_tool <> RecursionError /\
   fix_types 9 demo_tool = fix_types (S (depth demo_tool)) demo_tool) /\
  fix_types 1000 (nested_workflow 1200) = RecursionError.
Proof.
  split.
  - apply (proj1 fix_types_recursion_depth). cbn. lia.
  - apply (proj2 fix_types_recursion_depth). apply Nat.leb_le. vm_compute. reflexivity.
Defined.
